(** * jetconf.rest_server: route table and HTTP/2 stream dispatch

    A shallow embedding of [jetconf/rest_server.py]: the [HandlerList]
    route table and the event handling of [H2Protocol].

    Modelling conventions.
    - A Python [str] is represented by the [string] of its UTF-8 bytes.
      Every string operation the module uses ([+], [==], [in] on a tuple of
      literals, [split] at the ASCII character [?], [startswith], [encode],
      use as a dictionary key) commutes with that representation, and
      [str.encode()] becomes the identity on the underlying bytes.
    - A handler is an opaque callable of [jetconf.http_handlers]; calling one
      is recorded as an effect, its own behaviour is outside this module.
      A callable is truthy, [None] is falsy: [option Handler].
    - The objects [self.conn], [self.transport] and the logger are external;
      the calls made on them are collected, in program order, in a list of
      effects.
    - Exceptions that leave a method are results of the computation. *)

From Stdlib Require Import ZArith String Ascii List Lia.
From stdpp Require Import base option list strings gmap fin_maps.

Local Open Scope string_scope.
Local Open Scope Z_scope.
Local Open Scope list_scope.

(** ** Strings and bytes *)

Abbreviation bytes := (list Byte.byte).

(** [s.encode()] *)
Definition encode (s : string) : bytes := list_byte_of_string s.

(** [len(b)] on a bytes object *)
Definition len (b : bytes) : Z := Z.of_nat (length b).

Definition LF : string := String (ascii_of_nat 10) "".
Definition DQUOTE : string := String (ascii_of_nat 34) "".

(** [s.split(sep)] for a one-character separator: the pieces of [s] between
    the occurrences of [sep]; never the empty list. *)
Fixpoint split (s : string) (sep : ascii) : list string :=
  match s with
  | EmptyString => [EmptyString]
  | String c s' =>
      if Ascii.eqb c sep then EmptyString :: split s' sep
      else match split s' sep with
           | w :: ws => String c w :: ws
           | [] => [String c EmptyString]
           end
  end.

(** [s.startswith(p)] *)
Definition startswith (s p : string) : bool := String.prefix p s.

(** [x in (a, b, ...)] for strings *)
Definition str_in (x : string) (t : list string) : bool :=
  existsb (String.eqb x) t.

(** ** Header dictionaries

    [OrderedDict(pairs)]: keys in order of first insertion, a later pair for
    a key already present overwrites its value in place. *)

Abbreviation Headers := (list (string * string)).

Fixpoint od_setitem (d : Headers) (k v : string) : Headers :=
  match d with
  | [] => [(k, v)]
  | (k', v') :: d' =>
      if String.eqb k' k then (k', v) :: d' else (k', v') :: od_setitem d' k v
  end.

Definition OrderedDict (items : list (string * string)) : Headers :=
  fold_left (fun d kv => od_setitem d kv.1 kv.2) items [].

(** [d.get(k)]: the lookup behind [d[k]] *)
Fixpoint od_get (d : Headers) (k : string) : option string :=
  match d with
  | [] => None
  | (k', v) :: d' => if String.eqb k' k then Some v else od_get d' k
  end.

(** ** Exceptions and results *)

Inductive exn : Type :=
  | KeyError (key : string)
  | IndexError.

Inductive result (A : Type) : Type :=
  | Return (a : A)
  | Raise (e : exn).
Arguments Return {A} a.
Arguments Raise {A} e.

(** Values of the response header tuple: [str] or [int]. *)
Inductive HeaderValue : Type :=
  | hv_str (s : string)
  | hv_int (n : Z).

(** Events yielded by [H2Connection.receive_data]. *)
Inductive Event : Type :=
  | RequestReceived (stream_id : Z) (headers : list (string * string))
  | DataReceived (stream_id : Z) (data : bytes)
  | RemoteSettingsChanged
  | OtherEvent.

(** [HandlerConditionT = Callable[[str, str], bool]] *)
Abbreviation HandlerConditionT := (string → string → bool).

Section RestServer.

Context {Handler : Type}.

(** ** HandlerList *)

Record HandlerList : Type := mkHandlerList {
  handlers : list (HandlerConditionT * Handler);
  default_handler : option Handler
}.

(** [HandlerList.__init__] *)
Definition HandlerList_init : HandlerList :=
  {| handlers := []; default_handler := None |}.

Definition register_handler (self : HandlerList)
    (condition : HandlerConditionT) (handler : Handler) : HandlerList :=
  {| handlers := handlers self ++ [(condition, handler)];
     default_handler := default_handler self |}.

Definition register_default_handler (self : HandlerList) (handler : Handler)
    : HandlerList :=
  {| handlers := handlers self; default_handler := Some handler |}.

(** The [for h in self.handlers] loop of [get_handler], with the value
    returned after the loop as [dflt]. *)
Fixpoint get_handler_loop (hs : list (HandlerConditionT * Handler))
    (dflt : option Handler) (method path : string) : option Handler :=
  match hs with
  | [] => dflt
  | h :: rest =>
      if h.1 method path then Some h.2
      else get_handler_loop rest dflt method path
  end.

Definition get_handler (self : HandlerList) (method path : string)
    : option Handler :=
  get_handler_loop (handlers self) (default_handler self) method path.

(** ** H2Protocol *)

(** Calls made on the collaborators of the protocol object, in program
    order. [handler_call h stream_id headers None] is the three-argument call
    [h(self, stream_id, headers)], [handler_call h stream_id headers (Some
    data)] the four-argument call [h(self, stream_id, headers, data)]. *)
Inductive Effect : Type :=
  | transport_write
  | conn_send_headers (stream_id : Z) (headers : list (string * HeaderValue))
  | conn_send_data (stream_id : Z) (data : bytes) (end_stream : bool)
  | conn_acknowledge_settings
  | log_warn (msg : string)
  | handler_call (h : Handler) (stream_id : Z) (headers : Headers)
      (data : option bytes).

(** The part of [self] the module itself reads and writes. *)
Record H2Protocol : Type := mkH2Protocol {
  reqs_waiting_upload : gmap Z Headers
}.

(** [H2Protocol.__init__] *)
Definition H2Protocol_init : H2Protocol :=
  {| reqs_waiting_upload := ∅ |}.

(** A method body: from the object to a result, the object afterwards and
    the effects performed. *)
Definition M (A : Type) : Type :=
  H2Protocol → result A * H2Protocol * list Effect.

Definition ret {A} (a : A) : M A := fun self => (Return a, self, []).

Definition raise {A} (e : exn) : M A := fun self => (Raise e, self, []).

Definition bind {A B} (m : M A) (f : A → M B) : M B :=
  fun self =>
    match m self with
    | (Return a, self1, out1) =>
        match f a self1 with
        | (r, self2, out2) => (r, self2, out1 ++ out2)
        end
    | (Raise e, self1, out1) => (Raise e, self1, out1)
    end.

Definition perform (e : Effect) : M unit := fun self => (Return tt, self, [e]).

Notation "'let*' x := m 'in' k" := (bind m (fun x => k))
  (at level 10, x name, m at level 100, k at level 200, only parsing).

(** [d[k]] on a header dictionary *)
Definition getitem (d : Headers) (k : string) : M string :=
  match od_get d k with
  | Some v => ret v
  | None => raise (KeyError k)
  end.

(** [l[0]] on a list *)
Definition first {A} (l : list A) : M A :=
  match l with
  | x :: _ => ret x
  | [] => raise IndexError
  end.

(** [for x in xs: body(x)] *)
Fixpoint for_each {A} (xs : list A) (body : A → M unit) : M unit :=
  match xs with
  | [] => ret tt
  | x :: xs' => let* _ := body x in for_each xs' body
  end.

(** The names the methods of [H2Protocol] take from the module's globals:
    the route table [h2_handlers] and the configuration entry
    [CONFIG_HTTP["SERVER_NAME"]] of [jetconf.config]. *)
Class Globals : Type := mkGlobals {
  h2_handlers : HandlerList;
  SERVER_NAME : string
}.

Context {globals : Globals}.

Definition send_empty (stream_id : Z) (status_code status_msg : string)
    (status_in_body : bool) : M unit :=
  let response :=
    if status_in_body then status_code +:+ " " +:+ status_msg +:+ LF else "" in
  let response_bytes := encode response in
  let response_headers :=
    [ (":status", hv_str status_code);
      ("content-type", hv_str "text/plain");
      ("content-length", hv_int (len response_bytes));
      ("server", hv_str SERVER_NAME) ] in
  let* _ := perform (conn_send_headers stream_id response_headers) in
  perform (conn_send_data stream_id response_bytes true).

Definition handle_get_delete (headers : Headers) (stream_id : Z) : M unit :=
  let* path := getitem headers ":path" in
  let url_split := split path "?" in
  let* url_path := first url_split in
  let* method := getitem headers ":method" in
  match get_handler h2_handlers method url_path with
  | Some h => perform (handler_call h stream_id headers None)
  | None => send_empty stream_id "400" "Bad Request" true
  end.

(** [self.reqs_waiting_upload[stream_id] = headers] *)
Definition reqs_setitem (stream_id : Z) (headers : Headers) : M unit :=
  fun self =>
    (Return tt,
     {| reqs_waiting_upload :=
          <[stream_id := headers]> (reqs_waiting_upload self) |},
     []).

(** [self.reqs_waiting_upload.pop(stream_id)] under [try ... except
    KeyError]: [None] stands for the exception caught. *)
Definition reqs_pop (stream_id : Z) : M (option Headers) :=
  fun self =>
    match reqs_waiting_upload self !! stream_id with
    | Some headers =>
        (Return (Some headers),
         {| reqs_waiting_upload := delete stream_id (reqs_waiting_upload self) |},
         [])
    | None => (Return None, self, [])
    end.

Definition http_handle_upload (data : bytes) (stream_id : Z) : M unit :=
  let* popped := reqs_pop stream_id in
  match popped with
  | None => ret tt
  | Some headers =>
      let* path := getitem headers ":path" in
      let url_split := split path "?" in
      let* url_path := first url_split in
      let* method := getitem headers ":method" in
      match get_handler h2_handlers method url_path with
      | Some h => perform (handler_call h stream_id headers (Some data))
      | None => send_empty stream_id "400" "Bad Request" true
      end
  end.

(** The body of the [for event in events] loop of [data_received]. *)
Definition handle_event (event : Event) : M unit :=
  match event with
  | RequestReceived stream_id event_headers =>
      let headers := OrderedDict event_headers in
      let* http_method := getitem headers ":method" in
      if str_in http_method ["GET"; "DELETE"] then
        handle_get_delete headers stream_id
      else if str_in http_method ["PUT"; "POST"] then
        reqs_setitem stream_id headers
      else
        let* m := getitem headers ":method" in
        perform (log_warn ("Unknown http method " +:+ DQUOTE +:+ m +:+ DQUOTE))
  | DataReceived stream_id data => http_handle_upload data stream_id
  | RemoteSettingsChanged => perform conn_acknowledge_settings
  | OtherEvent => ret tt
  end.

(** [data_received], given the events [self.conn.receive_data(data)]
    yields. *)
Definition data_received (events : list Event) : M unit :=
  let* _ := perform transport_write in
  for_each events handle_event.

(** The successive [data_received] calls of one connection. A call that
    raises ends the connection: the event loop closes the transport. *)
Definition connection (batches : list (list Event)) : M unit :=
  for_each batches data_received.

(** ** RestServer *)

(** The callables [register_api_handlers] and [register_static_handlers]
    take from [jetconf.http_handlers]; those built from the datastore are
    given already built. *)
Record HttpHandlers : Type := mkHttpHandlers {
  api_root_handler : Handler;
  api_get : Handler;
  api_post : Handler;
  api_put : Handler;
  api_delete : Handler;
  api_op : Handler;
  get_file : Handler;
  unknown_req_handler : Handler
}.

(** [register_api_handlers] on the table [self.http_handlers], with the
    entries [CONFIG_HTTP["API_ROOT"]], [API_ROOT_data] and [API_ROOT_ops] of
    [jetconf.config]. *)
Definition register_api_handlers (http_handlers : HandlerList)
    (API_ROOT API_ROOT_data API_ROOT_ops : string) (hs : HttpHandlers)
    : HandlerList :=
  let t := register_handler http_handlers
    (λ m p, String.eqb m "GET" && String.eqb p API_ROOT)
    (api_root_handler hs) in
  let t := register_handler t
    (λ m p, String.eqb m "GET" && startswith p API_ROOT_data) (api_get hs) in
  let t := register_handler t
    (λ m p, String.eqb m "POST" && startswith p API_ROOT_data) (api_post hs) in
  let t := register_handler t
    (λ m p, String.eqb m "PUT" && startswith p API_ROOT_data) (api_put hs) in
  let t := register_handler t
    (λ m p, String.eqb m "DELETE" && startswith p API_ROOT_data)
    (api_delete hs) in
  register_handler t
    (λ m p, String.eqb m "POST" && startswith p API_ROOT_ops) (api_op hs).

Definition register_static_handlers (http_handlers : HandlerList)
    (hs : HttpHandlers) : HandlerList :=
  let t := register_handler http_handlers (λ m p, String.eqb m "GET")
    (get_file hs) in
  register_default_handler t (unknown_req_handler hs).

(** ** Observations on a run *)

(** A call of a handler on the given stream. *)
Definition is_call_on (stream_id : Z) (e : Effect) : bool :=
  match e with
  | handler_call _ s _ _ => Z.eqb s stream_id
  | _ => false
  end.

Definition is_request_on (stream_id : Z) (ev : Event) : bool :=
  match ev with
  | RequestReceived s _ => Z.eqb s stream_id
  | _ => false
  end.

Definition is_data_on (stream_id : Z) (ev : Event) : bool :=
  match ev with
  | DataReceived s _ => Z.eqb s stream_id
  | _ => false
  end.

(** The entries of [reqs_waiting_upload] stored under the given stream. *)
Definition pending_for (stream_id : Z) (self : H2Protocol)
    : list (Z * Headers) :=
  List.filter (λ kv, Z.eqb kv.1 stream_id)
    (map_to_list (reqs_waiting_upload self)).

(** Whether a request is pending for the given stream, as a number. *)
Definition pending_count (stream_id : Z) (self : H2Protocol) : nat :=
  match reqs_waiting_upload self !! stream_id with
  | Some _ => 1
  | None => 0
  end.

Definition is_call (e : Effect) : bool :=
  match e with
  | handler_call _ _ _ _ => true
  | _ => false
  end.

(** The shapes the processing of one event can take, as far as handler
    calls and pending requests go. *)
Inductive event_outcome (self : H2Protocol)
    : Event → result unit * H2Protocol * list Effect → Prop :=
  | eo_read_call s hl m h :
      od_get (OrderedDict hl) ":method" = Some m →
      str_in m ["GET"; "DELETE"] = true →
      event_outcome self (RequestReceived s hl)
        (Return tt, self, [handler_call h s (OrderedDict hl) None])
  | eo_store s hl m :
      od_get (OrderedDict hl) ":method" = Some m →
      str_in m ["PUT"; "POST"] = true →
      event_outcome self (RequestReceived s hl)
        (Return tt,
         {| reqs_waiting_upload :=
              <[s := OrderedDict hl]> (reqs_waiting_upload self) |},
         [])
  | eo_upload_call s body hs h :
      reqs_waiting_upload self !! s = Some hs →
      event_outcome self (DataReceived s body)
        (Return tt,
         {| reqs_waiting_upload := delete s (reqs_waiting_upload self) |},
         [handler_call h s hs (Some body)])
  | eo_upload_quiet s body r out :
      Forall (λ e, is_call e = false) out →
      event_outcome self (DataReceived s body)
        (r, {| reqs_waiting_upload := delete s (reqs_waiting_upload self) |},
         out)
  | eo_quiet ev r out :
      Forall (λ e, is_call e = false) out →
      event_outcome self ev (r, self, out).

End RestServer.

Arguments HandlerList : clear implicits.
Arguments HttpHandlers : clear implicits.
Arguments Globals : clear implicits.
Arguments Effect : clear implicits.

(** ** Events step by step *)

Section Steps.

Context {Handler : Type} {globals : Globals Handler}.

(** The stream an event belongs to, and the stream an effect is performed
    on. *)
Definition stream_of_event (ev : Event) : option Z :=
  match ev with
  | RequestReceived s _ => Some s
  | DataReceived s _ => Some s
  | RemoteSettingsChanged => None
  | OtherEvent => None
  end.

Definition stream_of_effect (e : Effect Handler) : option Z :=
  match e with
  | conn_send_headers s _ => Some s
  | conn_send_data s _ _ => Some s
  | handler_call _ s _ _ => Some s
  | transport_write => None
  | conn_acknowledge_settings => None
  | log_warn _ => None
  end.



(** What [send_empty(stream_id, "400", "Bad Request")] performs. *)
Definition bad_request_response (stream_id : Z) : list (Effect Handler) :=
  [ conn_send_headers stream_id
      [ (":status", hv_str "400");
        ("content-type", hv_str "text/plain");
        ("content-length", hv_int 16);
        ("server", hv_str SERVER_NAME) ];
    conn_send_data stream_id (encode ("400 Bad Request" +:+ LF)) true ].

(** Every pending request was stored for a PUT or a POST. *)
Definition pending_are_uploads (self : H2Protocol) : Prop :=
  ∀ sid hs,
    reqs_waiting_upload self !! sid = Some hs →
    ∃ m, od_get hs ":method" = Some m ∧ (m = "PUT" ∨ m = "POST").


(** The branches of the loop body of [data_received], one constructor for
    each way through [handle_get_delete] and [http_handle_upload]. *)
Inductive event_step (self : H2Protocol)
    : Event → result unit * H2Protocol * list (Effect Handler) → Prop :=
  | es_no_method s hl :
      od_get (OrderedDict hl) ":method" = None →
      event_step self (RequestReceived s hl)
        (Raise (KeyError ":method"), self, [])
  | es_read_no_path s hl m :
      od_get (OrderedDict hl) ":method" = Some m →
      m = "GET" ∨ m = "DELETE" →
      od_get (OrderedDict hl) ":path" = None →
      event_step self (RequestReceived s hl)
        (Raise (KeyError ":path"), self, [])
  | es_read_call s hl m p w ws h :
      od_get (OrderedDict hl) ":method" = Some m →
      m = "GET" ∨ m = "DELETE" →
      od_get (OrderedDict hl) ":path" = Some p →
      split p "?" = w :: ws →
      get_handler h2_handlers m w = Some h →
      event_step self (RequestReceived s hl)
        (Return tt, self, [handler_call h s (OrderedDict hl) None])
  | es_read_400 s hl m p w ws :
      od_get (OrderedDict hl) ":method" = Some m →
      m = "GET" ∨ m = "DELETE" →
      od_get (OrderedDict hl) ":path" = Some p →
      split p "?" = w :: ws →
      get_handler h2_handlers m w = None →
      event_step self (RequestReceived s hl)
        (Return tt, self, bad_request_response s)
  | es_store s hl m :
      od_get (OrderedDict hl) ":method" = Some m →
      m = "PUT" ∨ m = "POST" →
      event_step self (RequestReceived s hl)
        (Return tt,
         {| reqs_waiting_upload :=
              <[s := OrderedDict hl]> (reqs_waiting_upload self) |},
         [])
  | es_unknown s hl m :
      od_get (OrderedDict hl) ":method" = Some m →
      m ≠ "GET" → m ≠ "DELETE" → m ≠ "PUT" → m ≠ "POST" →
      event_step self (RequestReceived s hl)
        (Return tt, self,
         [log_warn ("Unknown http method " +:+ DQUOTE +:+ m +:+ DQUOTE)])
  | es_orphan s body :
      reqs_waiting_upload self !! s = None →
      event_step self (DataReceived s body) (Return tt, self, [])
  | es_upload_no_path s body hs :
      reqs_waiting_upload self !! s = Some hs →
      od_get hs ":path" = None →
      event_step self (DataReceived s body)
        (Raise (KeyError ":path"),
         {| reqs_waiting_upload := delete s (reqs_waiting_upload self) |},
         [])
  | es_upload_no_method s body hs p :
      reqs_waiting_upload self !! s = Some hs →
      od_get hs ":path" = Some p →
      od_get hs ":method" = None →
      event_step self (DataReceived s body)
        (Raise (KeyError ":method"),
         {| reqs_waiting_upload := delete s (reqs_waiting_upload self) |},
         [])
  | es_upload_call s body hs m p w ws h :
      reqs_waiting_upload self !! s = Some hs →
      od_get hs ":path" = Some p →
      split p "?" = w :: ws →
      od_get hs ":method" = Some m →
      get_handler h2_handlers m w = Some h →
      event_step self (DataReceived s body)
        (Return tt,
         {| reqs_waiting_upload := delete s (reqs_waiting_upload self) |},
         [handler_call h s hs (Some body)])
  | es_upload_400 s body hs m p w ws :
      reqs_waiting_upload self !! s = Some hs →
      od_get hs ":path" = Some p →
      split p "?" = w :: ws →
      od_get hs ":method" = Some m →
      get_handler h2_handlers m w = None →
      event_step self (DataReceived s body)
        (Return tt,
         {| reqs_waiting_upload := delete s (reqs_waiting_upload self) |},
         bad_request_response s)
  | es_settings :
      event_step self RemoteSettingsChanged
        (Return tt, self, [conn_acknowledge_settings])
  | es_other :
      event_step self OtherEvent (Return tt, self, []).

End Steps.

(** ** A configured server

    The table after [register_api_handlers] and [register_static_handlers],
    with handlers known by name. *)

Definition example_handlers : HttpHandlers string :=
  {| api_root_handler := "api_root_handler";
     api_get := "api_get";
     api_post := "api_post";
     api_put := "api_put";
     api_delete := "api_delete";
     api_op := "api_op";
     get_file := "get_file";
     unknown_req_handler := "unknown_req_handler" |}.

Definition example_api_table : HandlerList string :=
  register_api_handlers HandlerList_init
    "/restconf" "/restconf/data" "/restconf/operations" example_handlers.

Definition example_table : HandlerList string :=
  register_static_handlers example_api_table example_handlers.

(** A server with every handler registered, and one with the API handlers
    only, which has no default handler. *)
Definition example_globals : Globals string :=
  {| h2_handlers := example_table; SERVER_NAME := "jetconf" |}.

Definition example_api_globals : Globals string :=
  {| h2_handlers := example_api_table; SERVER_NAME := "jetconf" |}.

(** * Properties *)

Section Properties.

Context {Handler : Type} {globals : Globals Handler}.

Notation "'let*' x := m 'in' k" := (bind m (fun x => k))
  (at level 10, x name, m at level 100, k at level 200, only parsing).

(** ** Route table *)

Lemma get_handler_loop_app (pre post : list (HandlerConditionT * Handler))
    dflt method path :
  Forall (λ e, e.1 method path = false) pre →
  get_handler_loop (pre ++ post) dflt method path
  = get_handler_loop post dflt method path.
Proof.
  induction 1 as [|e pre He _ IH]; simpl; [done|].
  by rewrite He.
Qed.

Lemma get_handler_loop_none (hs : list (HandlerConditionT * Handler))
    dflt method path :
  Forall (λ e, e.1 method path = false) hs →
  get_handler_loop hs dflt method path = dflt.
Proof.
  intros H. rewrite <- (app_nil_r hs). by rewrite get_handler_loop_app.
Qed.

(** Entries before index [i] are the first [i] entries. *)
Lemma before_index_Forall {A} (P : A → Prop) (l : list A) (i : nat) :
  (∀ j x, (j < i)%nat → l !! j = Some x → P x) → Forall P (take i l).
Proof.
  intros H. apply Forall_lookup. intros j x Hj.
  apply lookup_take_Some in Hj as [Hj Hlt]. eauto.
Qed.

(** The loop ends in one of two ways. *)
Lemma get_handler_loop_cases (hs : list (HandlerConditionT * Handler))
    dflt method path :
  (∃ i c h,
     hs !! i = Some (c, h) ∧ c method path = true
     ∧ (∀ j c' h', (j < i)%nat → hs !! j = Some (c', h') →
                   c' method path = false)
     ∧ get_handler_loop hs dflt method path = Some h)
  ∨ ((∀ i c h, hs !! i = Some (c, h) → c method path = false)
     ∧ get_handler_loop hs dflt method path = dflt).
Proof.
  induction hs as [|[c h] hs IH]; simpl.
  - right. split; [|done]. intros i c h Hi. by destruct i.
  - destruct (c method path) eqn:Hc.
    + left. exists 0%nat, c, h. repeat split; [done..|]. intros j; lia.
    + destruct IH as [(i & c' & h' & Hi & Hc' & Hb & Hr)|[Hnone Hr]].
      * left. exists (S i), c', h'. repeat split; [done..| |done].
        intros [|j] c2 h2 Hj Hl; simpl in Hl; [by simplify_eq|].
        apply (Hb j c2 h2); [lia|done].
      * right. split; [|done].
        intros [|i] c2 h2 Hi; simpl in Hi; [by simplify_eq|eauto].
Qed.

(** C1: [get_handler] returns the handler of the entry with the least index
    (the earliest registered one) whose condition holds of (method, path),
    whatever the entries after it are; when no condition holds it returns
    the default handler; and one of the two is always the case. Each
    [register_handler] takes the next index and leaves the earlier entries
    where they are. *)
Theorem get_handler_first_match (self : HandlerList Handler)
    (method path : string) :
  (∀ i c h,
     handlers self !! i = Some (c, h) →
     c method path = true →
     (∀ j c' h', (j < i)%nat → handlers self !! j = Some (c', h') →
                 c' method path = false) →
     get_handler self method path = Some h)
  ∧ ((∀ i c h, handlers self !! i = Some (c, h) → c method path = false) →
     get_handler self method path = default_handler self)
  ∧ ((∃ i c h,
        handlers self !! i = Some (c, h) ∧ c method path = true
        ∧ (∀ j c' h', (j < i)%nat → handlers self !! j = Some (c', h') →
                      c' method path = false)
        ∧ get_handler self method path = Some h)
     ∨ ((∀ i c h, handlers self !! i = Some (c, h) → c method path = false)
        ∧ get_handler self method path = default_handler self))
  ∧ (∀ c h,
       handlers (register_handler self c h) !! length (handlers self)
       = Some (c, h)
       ∧ ∀ i, (i < length (handlers self))%nat →
              handlers (register_handler self c h) !! i = handlers self !! i).
Proof.
  split; [|split; [|split]].
  - intros i c h Hi Hc Hbefore. unfold get_handler.
    rewrite <- (take_drop_middle _ _ _ Hi).
    rewrite get_handler_loop_app.
    + simpl. by rewrite Hc.
    + apply before_index_Forall. intros j [c' h'] Hj Hl. simpl. eauto.
  - intros Hnone. unfold get_handler. apply get_handler_loop_none.
    apply Forall_lookup. intros i [c h] Hi. simpl. eauto.
  - apply get_handler_loop_cases.
  - intros c h. simpl. split.
    + rewrite lookup_app_r by lia. by rewrite Nat.sub_diag.
    + intros i Hi. by rewrite lookup_app_l.
Qed.

(** C7: with no matching condition and no default handler registered
    [get_handler] returns [None]. A fresh table has no default handler,
    [register_handler] does not set one, and [register_default_handler]
    overwrites the one field that holds it. *)
Theorem get_handler_no_default (self : HandlerList Handler) (method path : string) :
  ((∀ i c h, handlers self !! i = Some (c, h) → c method path = false) →
   default_handler self = None →
   get_handler self method path = None)
  ∧ default_handler (HandlerList_init (Handler := Handler)) = None
  ∧ (∀ c h, default_handler (register_handler self c h) = default_handler self)
  ∧ (∀ h, default_handler (register_default_handler self h) = Some h
          ∧ handlers (register_default_handler self h) = handlers self)
  ∧ (∀ h1 h2,
       register_default_handler (register_default_handler self h1) h2
       = register_default_handler self h2).
Proof.
  repeat split.
  intros Hnone Hd. unfold get_handler. rewrite <- Hd.
  apply get_handler_loop_none.
  apply Forall_lookup. intros i [c h] Hi. simpl. eauto.
Qed.

(** ** Paths and query strings *)

Lemma split_cons s sep : ∃ w ws, split s sep = w :: ws.
Proof.
  induction s as [|c s IH]; simpl; [by eauto|].
  destruct (Ascii.eqb c sep); [by eauto|].
  destruct IH as (w & ws & ->). eauto.
Qed.

(** The first piece of a split is not changed by appending the separator
    and anything after it. *)
Lemma split_head_query p q sep :
  ∃ w ws ws',
    split p sep = w :: ws ∧ split (p +:+ String sep q) sep = w :: ws'.
Proof.
  induction p as [|c p IH]; simpl.
  - rewrite Ascii.eqb_refl. eauto.
  - destruct (Ascii.eqb c sep); [by eauto|].
    destruct IH as (w & ws & ws' & -> & ->). eauto.
Qed.

Lemma str_in_get_delete m :
  m = "GET" ∨ m = "DELETE" → str_in m ["GET"; "DELETE"] = true.
Proof. by intros [-> | ->]. Qed.

Lemma str_in_put_post m :
  m = "PUT" ∨ m = "POST" →
  str_in m ["GET"; "DELETE"] = false ∧ str_in m ["PUT"; "POST"] = true.
Proof. by intros [-> | ->]. Qed.

Lemma str_in_other m :
  m ≠ "GET" → m ≠ "DELETE" → m ≠ "PUT" → m ≠ "POST" →
  str_in m ["GET"; "DELETE"] = false ∧ str_in m ["PUT"; "POST"] = false.
Proof.
  intros H1 H2 H3 H4. unfold str_in. simpl.
  apply String.eqb_neq in H1, H2, H3, H4.
  by rewrite H1, H2, H3, H4.
Qed.

(** ** The method monad *)

Lemma bind_ret_l {A B} (a : A) (f : A → M (Handler := Handler) B) self :
  bind (ret a) f self = f a self.
Proof. unfold bind, ret. by destruct (f a self) as [[? ?] ?]. Qed.

Lemma bind_raise_l {A B} (e : exn) (f : A → M (Handler := Handler) B) self :
  bind (raise e) f self = (Raise e, self, []).
Proof. done. Qed.

Lemma getitem_Some d k v :
  od_get d k = Some v → getitem (Handler := Handler) d k = ret v.
Proof. unfold getitem. by intros ->. Qed.

Lemma getitem_None d k :
  od_get d k = None → getitem (Handler := Handler) d k = raise (KeyError k).
Proof. unfold getitem. by intros ->. Qed.

(** ** Requests without a body *)

(** The routing step shared by both dispatch paths. *)
Lemma handle_get_delete_routed self stream_id headers method path :
  od_get headers ":method" = Some method →
  od_get headers ":path" = Some path →
  ∃ url_path rest,
    split path "?" = url_path :: rest
    ∧ handle_get_delete headers stream_id self
      = match get_handler h2_handlers method url_path with
        | Some h => (Return tt, self, [handler_call h stream_id headers None])
        | None => send_empty stream_id "400" "Bad Request" true self
        end.
Proof.
  intros Hm Hp. destruct (split_cons path "?") as (w & ws & Hs).
  exists w, ws. split; [done|].
  unfold handle_get_delete, getitem, first, bind, ret.
  rewrite Hp, Hs, Hm.
  by destruct (get_handler h2_handlers method w).
Qed.

(** [http_handle_upload] by cases on the pending request. *)
Lemma http_handle_upload_unfold data stream_id self :
  http_handle_upload data stream_id self
  = match reqs_waiting_upload self !! stream_id with
    | None => (Return tt, self, [])
    | Some headers =>
        (let* path := getitem headers ":path" in
         let url_split := split path "?" in
         let* url_path := first url_split in
         let* method := getitem headers ":method" in
         match get_handler h2_handlers method url_path with
         | Some h => perform (handler_call h stream_id headers (Some data))
         | None => send_empty stream_id "400" "Bad Request" true
         end)
          {| reqs_waiting_upload :=
               delete stream_id (reqs_waiting_upload self) |}
    end.
Proof.
  unfold http_handle_upload, reqs_pop. unfold bind at 1.
  destruct (reqs_waiting_upload self !! stream_id) as [headers|]; [|done].
  match goal with |- context [bind ?m ?f ?s] =>
    by destruct (bind m f s) as [[? ?] ?] end.
Qed.

Lemma http_handle_upload_routed self stream_id data headers method path :
  reqs_waiting_upload self !! stream_id = Some headers →
  od_get headers ":method" = Some method →
  od_get headers ":path" = Some path →
  let self' :=
    {| reqs_waiting_upload := delete stream_id (reqs_waiting_upload self) |} in
  ∃ url_path rest,
    split path "?" = url_path :: rest
    ∧ http_handle_upload data stream_id self
      = match get_handler h2_handlers method url_path with
        | Some h =>
            (Return tt, self', [handler_call h stream_id headers (Some data)])
        | None => send_empty stream_id "400" "Bad Request" true self'
        end.
Proof.
  intros Hw Hm Hp self'. destruct (split_cons path "?") as (w & ws & Hs).
  exists w, ws. split; [done|].
  rewrite http_handle_upload_unfold, Hw.
  unfold getitem, first, bind, ret. rewrite Hp, Hs, Hm.
  by destruct (get_handler h2_handlers method w).
Qed.

Lemma handle_event_get_delete self stream_id event_headers method :
  od_get (OrderedDict event_headers) ":method" = Some method →
  method = "GET" ∨ method = "DELETE" →
  handle_event (RequestReceived stream_id event_headers) self
  = handle_get_delete (OrderedDict event_headers) stream_id self.
Proof.
  intros Hm Hgd. unfold handle_event.
  rewrite (getitem_Some _ _ _ Hm), bind_ret_l.
  by rewrite (str_in_get_delete _ Hgd).
Qed.

Lemma handle_event_put_post self stream_id event_headers method :
  od_get (OrderedDict event_headers) ":method" = Some method →
  method = "PUT" ∨ method = "POST" →
  handle_event (RequestReceived stream_id event_headers) self
  = (Return tt,
     {| reqs_waiting_upload :=
          <[stream_id := OrderedDict event_headers]>
            (reqs_waiting_upload self) |},
     []).
Proof.
  intros Hm Hpp. unfold handle_event.
  rewrite (getitem_Some _ _ _ Hm), bind_ret_l.
  by destruct (str_in_put_post _ Hpp) as [-> ->].
Qed.

Lemma handle_event_other_method self stream_id event_headers method :
  od_get (OrderedDict event_headers) ":method" = Some method →
  str_in method ["GET"; "DELETE"] = false →
  str_in method ["PUT"; "POST"] = false →
  handle_event (RequestReceived stream_id event_headers) self
  = (Return tt, self,
     [log_warn ("Unknown http method " +:+ DQUOTE +:+ method +:+ DQUOTE)]).
Proof.
  intros Hm H1 H2. unfold handle_event.
  rewrite (getitem_Some _ _ _ Hm), bind_ret_l, H1, H2.
  by rewrite bind_ret_l.
Qed.

Lemma get_handler_unmatched (self : HandlerList Handler) method path :
  (∀ i c h, handlers self !! i = Some (c, h) → c method path = false) →
  get_handler self method path = default_handler self.
Proof.
  intros Hnone. unfold get_handler. apply get_handler_loop_none.
  apply Forall_lookup. intros i [c h] Hi. simpl. eauto.
Qed.

(** C3: a request-received event with method GET or DELETE is routed while
    that event is processed, on the path up to the first [?]. If the table
    yields a handler, the event performs exactly one effect, the call
    [h(self, stream_id, headers)]; if it yields none, the event performs the
    400 response on the stream and calls no handler. Nothing is stored for
    the stream. *)
Theorem get_delete_dispatched_on_request (self : H2Protocol) (stream_id : Z)
    (event_headers : list (string * string)) (method path : string) :
  let headers := OrderedDict event_headers in
  od_get headers ":method" = Some method →
  method = "GET" ∨ method = "DELETE" →
  od_get headers ":path" = Some path →
  ∃ url_path rest,
    split path "?" = url_path :: rest
    ∧ (∀ h, get_handler h2_handlers method url_path = Some h →
            handle_event (RequestReceived stream_id event_headers) self
            = (Return tt, self, [handler_call h stream_id headers None]))
    ∧ (get_handler h2_handlers method url_path = None →
       handle_event (RequestReceived stream_id event_headers) self
       = (Return tt, self,
          [ conn_send_headers stream_id
              [ (":status", hv_str "400");
                ("content-type", hv_str "text/plain");
                ("content-length", hv_int 16);
                ("server", hv_str SERVER_NAME) ];
            conn_send_data stream_id (encode ("400 Bad Request" +:+ LF))
              true ])).
Proof.
  intros headers Hm Hgd Hp.
  destruct (handle_get_delete_routed self stream_id headers method path Hm Hp)
    as (w & ws & Hs & Hrun).
  exists w, ws. split; [done|].
  rewrite (handle_event_get_delete _ _ _ _ Hm Hgd). fold headers.
  rewrite Hrun. split.
  - by intros h ->.
  - by intros ->.
Qed.

(** C4: two header sets with the same method whose paths are [p] and
    [p + "?" + q] are routed on the same path, hence to the same handler (or
    both to the 400 response), when dispatched at once and when dispatched
    after the upload. *)
Theorem query_string_ignored (self : H2Protocol) (stream_id : Z)
    (headers headers_q : Headers) (method p q : string) (data : bytes) :
  od_get headers ":method" = Some method →
  od_get headers_q ":method" = Some method →
  od_get headers ":path" = Some p →
  od_get headers_q ":path" = Some (p +:+ "?" +:+ q) →
  ∃ url_path rest rest',
    split p "?" = url_path :: rest
    ∧ split (p +:+ "?" +:+ q) "?" = url_path :: rest'
    ∧ (∀ hs, hs = headers ∨ hs = headers_q →
         handle_get_delete hs stream_id self
         = match get_handler h2_handlers method url_path with
           | Some h => (Return tt, self, [handler_call h stream_id hs None])
           | None => send_empty stream_id "400" "Bad Request" true self
           end)
    ∧ (∀ hs, hs = headers ∨ hs = headers_q →
         reqs_waiting_upload self !! stream_id = Some hs →
         let self' :=
           {| reqs_waiting_upload :=
                delete stream_id (reqs_waiting_upload self) |} in
         http_handle_upload data stream_id self
         = match get_handler h2_handlers method url_path with
           | Some h =>
               (Return tt, self', [handler_call h stream_id hs (Some data)])
           | None => send_empty stream_id "400" "Bad Request" true self'
           end).
Proof.
  intros Hm Hmq Hp Hpq.
  destruct (split_head_query p q "?") as (w & ws & ws' & Hs & Hsq).
  exists w, ws, ws'. split; [done|]. split; [done|]. split.
  - intros hs [-> | ->].
    + destruct (handle_get_delete_routed self stream_id _ _ _ Hm Hp)
        as (w1 & ws1 & Hs1 & ->). rewrite Hs in Hs1. by simplify_eq.
    + destruct (handle_get_delete_routed self stream_id _ _ _ Hmq Hpq)
        as (w1 & ws1 & Hs1 & ->).
      change ("?" +:+ q) with (String "?" q) in Hs1.
      rewrite Hsq in Hs1. by simplify_eq.
  - intros hs [-> | ->] Hw self'.
    + destruct (http_handle_upload_routed self stream_id data _ _ _ Hw Hm Hp)
        as (w1 & ws1 & Hs1 & ->). rewrite Hs in Hs1. by simplify_eq.
    + destruct (http_handle_upload_routed self stream_id data _ _ _ Hw Hmq Hpq)
        as (w1 & ws1 & Hs1 & ->).
      change ("?" +:+ q) with (String "?" q) in Hs1.
      rewrite Hsq in Hs1. by simplify_eq.
Qed.

(** ** Body data *)

(** C5: a body-data event for a stream with no pending request returns
    normally, performs no effect and leaves the object as it was. After any
    body-data event the stream has no pending request, so a repeated event
    for the same stream is such a case. *)
Theorem orphan_body_ignored (self : H2Protocol) (stream_id : Z) (data : bytes) :
  (reqs_waiting_upload self !! stream_id = None →
   handle_event (DataReceived stream_id data) self = (Return tt, self, []))
  ∧ reqs_waiting_upload
      (handle_event (DataReceived stream_id data) self).1.2 !! stream_id
    = None.
Proof.
  split.
  - intros Hw. simpl. by rewrite http_handle_upload_unfold, Hw.
  - simpl. rewrite http_handle_upload_unfold.
    destruct (reqs_waiting_upload self !! stream_id) as [headers|] eqn:Hw;
      [|done].
    unfold getitem, first, bind, ret, raise, send_empty, perform.
    destruct (od_get headers ":path") as [path|];
      [|by apply lookup_delete_eq].
    destruct (split path "?") as [|w ws]; [by apply lookup_delete_eq|].
    destruct (od_get headers ":method") as [method|];
      [|by apply lookup_delete_eq].
    destruct (get_handler h2_handlers method w); by apply lookup_delete_eq.
Qed.

(** ** The error response *)

Lemma encode_app s1 s2 : encode (s1 +:+ s2) = encode s1 ++ encode s2.
Proof.
  unfold encode, list_byte_of_string.
  induction s1 as [|c s1 IH]; simpl; [done|]. by rewrite IH.
Qed.

(** C6: [send_empty] performs two effects on the stream: the header block
    with the status, the content type text/plain, the byte length of the
    body and the server name, then the body with the stream ended. With
    [status_in_body] the body is the bytes of the code, a space, the
    message and a line feed, otherwise it is empty. A GET or DELETE request
    that no condition matches, in a table without default handler, gets
    status 400 and the sixteen bytes of "400 Bad Request" and a line
    feed. *)
Theorem send_empty_response (self : H2Protocol) (stream_id : Z)
    (status_code status_msg : string) (status_in_body : bool) :
  let body :=
    if status_in_body
    then encode status_code ++ [Byte.x20] ++ encode status_msg ++ [Byte.x0a]
    else [] in
  send_empty stream_id status_code status_msg status_in_body self
  = (Return tt, self,
     [ conn_send_headers stream_id
         [ (":status", hv_str status_code);
           ("content-type", hv_str "text/plain");
           ("content-length", hv_int (Z.of_nat (length body)));
           ("server", hv_str SERVER_NAME) ];
       conn_send_data stream_id body true ])
  ∧ (status_in_body = true →
     body = encode (status_code +:+ " " +:+ status_msg +:+ LF))
  ∧ (∀ event_headers method path url_path rest,
       od_get (OrderedDict event_headers) ":method" = Some method →
       method = "GET" ∨ method = "DELETE" →
       od_get (OrderedDict event_headers) ":path" = Some path →
       split path "?" = url_path :: rest →
       (∀ i c h, handlers h2_handlers !! i = Some (c, h) →
                 c method url_path = false) →
       default_handler h2_handlers = None →
       handle_event (RequestReceived stream_id event_headers) self
       = (Return tt, self,
          [ conn_send_headers stream_id
              [ (":status", hv_str "400");
                ("content-type", hv_str "text/plain");
                ("content-length", hv_int 16);
                ("server", hv_str SERVER_NAME) ];
            conn_send_data stream_id
              (encode "400" ++ [Byte.x20] ++ encode "Bad Request"
               ++ [Byte.x0a])
              true ])).
Proof.
  intros body. split; [|split].
  - unfold send_empty, bind, perform, len. subst body.
    destruct status_in_body; [|done].
    by rewrite !encode_app.
  - intros ->. subst body. by rewrite !encode_app.
  - intros event_headers method path url_path rest Hm Hgd Hp Hs Hnone Hd.
    rewrite (handle_event_get_delete _ _ _ _ Hm Hgd).
    destruct (handle_get_delete_routed self stream_id _ _ _ Hm Hp)
      as (w & ws & Hs' & ->).
    rewrite Hs in Hs'. simplify_eq.
    by rewrite (get_handler_unmatched _ _ _ Hnone), Hd.
Qed.

(** ** Other methods *)

(** C8: a request-received event whose method is none of GET, DELETE, PUT
    and POST returns normally with the warning as its only effect; the
    object, and with it the pending requests, is unchanged. *)
Theorem unknown_method_logged (self : H2Protocol) (stream_id : Z)
    (event_headers : list (string * string)) (method : string) :
  od_get (OrderedDict event_headers) ":method" = Some method →
  method ≠ "GET" → method ≠ "DELETE" → method ≠ "PUT" → method ≠ "POST" →
  handle_event (RequestReceived stream_id event_headers) self
  = (Return tt, self,
     [log_warn ("Unknown http method " +:+ DQUOTE +:+ method +:+ DQUOTE)]).
Proof.
  intros Hm H1 H2 H3 H4.
  destruct (str_in_other _ H1 H2 H3 H4) as [Hgd Hpp].
  by apply handle_event_other_method.
Qed.

(** ** Missing pseudo-headers *)

Lemma bind_state_ext {A B} (m : M (Handler := Handler) A) (f : A → M (Handler := Handler) B) self1 self2 :
  m self1 = m self2 → bind m f self1 = bind m f self2.
Proof. unfold bind. by intros ->. Qed.

Lemma data_received_ext events self1 self2 :
  for_each events handle_event self1 = for_each events handle_event self2 →
  data_received events self1 = data_received events self2.
Proof. unfold data_received, bind, perform. by intros ->. Qed.

Lemma data_received_raise ev rest self e self' out :
  handle_event ev self = (Raise e, self', out) →
  data_received (ev :: rest) self = (Raise e, self', transport_write :: out).
Proof.
  intros H. unfold data_received, perform. simpl for_each.
  unfold bind at 1 2. by rewrite H.
Qed.

(** C9: a request-received event whose headers have no [:method] entry
    raises [KeyError] with no effect performed; so does a GET or DELETE
    request without [:path]; a body-data event whose pending headers have
    no [:path] raises it after the pending request has been removed. The
    exception is not caught: it leaves [data_received], and the events
    after it in the batch are not processed. *)
Theorem missing_pseudo_header_raises (self : H2Protocol) (stream_id : Z) :
  (∀ event_headers,
     od_get (OrderedDict event_headers) ":method" = None →
     handle_event (RequestReceived stream_id event_headers) self
     = (Raise (KeyError ":method"), self, []))
  ∧ (∀ headers,
       od_get headers ":path" = None →
       handle_get_delete headers stream_id self
       = (Raise (KeyError ":path"), self, []))
  ∧ (∀ event_headers method,
       od_get (OrderedDict event_headers) ":method" = Some method →
       method = "GET" ∨ method = "DELETE" →
       od_get (OrderedDict event_headers) ":path" = None →
       handle_event (RequestReceived stream_id event_headers) self
       = (Raise (KeyError ":path"), self, []))
  ∧ (∀ headers data,
       reqs_waiting_upload self !! stream_id = Some headers →
       od_get headers ":path" = None →
       handle_event (DataReceived stream_id data) self
       = (Raise (KeyError ":path"),
          {| reqs_waiting_upload :=
               delete stream_id (reqs_waiting_upload self) |},
          []))
  ∧ (∀ ev rest e self' out,
       handle_event ev self = (Raise e, self', out) →
       data_received (ev :: rest) self
       = (Raise e, self', transport_write :: out)).
Proof.
  assert (∀ headers, od_get headers ":path" = None →
            handle_get_delete headers stream_id self
            = (Raise (KeyError ":path"), self, [])) as Hgd.
  { intros headers Hp. unfold handle_get_delete.
    by rewrite (getitem_None _ _ Hp). }
  repeat split.
  - intros event_headers Hm. unfold handle_event.
    by rewrite (getitem_None _ _ Hm).
  - done.
  - intros event_headers method Hm Hmeth Hp.
    rewrite (handle_event_get_delete _ _ _ _ Hm Hmeth). by apply Hgd.
  - intros headers data Hw Hp. simpl.
    rewrite http_handle_upload_unfold, Hw. by rewrite (getitem_None _ _ Hp).
  - intros ev rest e self' out. apply data_received_raise.
Qed.

(** ** Pending requests *)

Lemma filter_key_unique {V} (l : list (Z * V)) (k : Z) :
  NoDup l.*1 → (length (List.filter (λ kv, Z.eqb kv.1 k) l) ≤ 1)%nat.
Proof.
  induction l as [|[k' v] l IH]; simpl; [lia|].
  intros Hnd. apply NoDup_cons in Hnd as [Hnotin Hnd].
  destruct (Z.eqb_spec k' k) as [->|Hne]; [|by apply IH].
  simpl. assert (List.filter (λ kv : Z * V, Z.eqb kv.1 k) l = []) as ->; [|done].
  clear IH Hnd. induction l as [|[k2 v2] l IH]; simpl; [done|].
  apply not_elem_of_cons in Hnotin as [Hne Hnotin].
  destruct (Z.eqb_spec k2 k) as [->|_]; [done|]. by apply IH.
Qed.

Lemma pending_for_unique (self : H2Protocol) (stream_id : Z) :
  (length (pending_for stream_id self) ≤ 1)%nat.
Proof. apply filter_key_unique, NoDup_fst_map_to_list. Qed.

Lemma for_each_head_ext {A} (body : A → M (Handler := Handler) unit) x xs self1 self2 :
  body x self1 = body x self2 →
  for_each (x :: xs) body self1 = for_each (x :: xs) body self2.
Proof. simpl. apply bind_state_ext. Qed.

(** C10: [reqs_waiting_upload] holds at most one entry per stream after
    every event. A PUT or POST request-received event for a stream that
    already has a pending request returns normally without any effect and
    leaves the new headers, and nothing of the old ones, under that stream;
    the other streams keep their entries. The connection from that event on
    runs the same, in result, object and effects, whatever headers were
    pending for the stream before. *)
Theorem pending_request_replaced (self : H2Protocol) (stream_id : Z) :
  (∀ event sid,
     (length (pending_for sid (handle_event event self).1.2) ≤ 1)%nat)
  ∧ (∀ old event_headers method,
       reqs_waiting_upload self !! stream_id = Some old →
       od_get (OrderedDict event_headers) ":method" = Some method →
       method = "PUT" ∨ method = "POST" →
       let self' :=
         {| reqs_waiting_upload :=
              <[stream_id := OrderedDict event_headers]>
                (delete stream_id (reqs_waiting_upload self)) |} in
       handle_event (RequestReceived stream_id event_headers) self
       = (Return tt, self', [])
       ∧ reqs_waiting_upload self' !! stream_id
         = Some (OrderedDict event_headers)
       ∧ (∀ k, k ≠ stream_id →
               reqs_waiting_upload self' !! k = reqs_waiting_upload self !! k)
       ∧ (∀ old' rest batches,
            connection ((RequestReceived stream_id event_headers :: rest)
                        :: batches)
              {| reqs_waiting_upload :=
                   <[stream_id := old']> (reqs_waiting_upload self) |}
            = connection ((RequestReceived stream_id event_headers :: rest)
                          :: batches) self)).
Proof.
  split; [intros; apply pending_for_unique|].
  intros old event_headers method Hw Hm Hpp self'. repeat split.
  - rewrite (handle_event_put_post _ _ _ _ Hm Hpp). subst self'.
    by rewrite insert_delete_eq.
  - apply lookup_insert_eq.
  - intros k Hk. simpl. rewrite lookup_insert_ne by done.
    by apply lookup_delete_ne.
  - intros old' rest batches. unfold connection.
    apply for_each_head_ext, data_received_ext, for_each_head_ext.
    rewrite !(handle_event_put_post _ _ _ _ Hm Hpp). simpl.
    by rewrite insert_insert_eq.
Qed.

(** ** Runs of events *)

Lemma send_empty_quiet stream_id code msg in_body self :
  ∃ out, send_empty stream_id code msg in_body self = (Return tt, self, out)
         ∧ Forall (λ e, is_call e = false) out.
Proof.
  eexists. split; [reflexivity|]. by repeat constructor.
Qed.

Lemma handle_get_delete_outcome self s hl m :
  od_get (OrderedDict hl) ":method" = Some m →
  str_in m ["GET"; "DELETE"] = true →
  event_outcome self (RequestReceived s hl)
    (handle_get_delete (OrderedDict hl) s self).
Proof.
  intros Hm Hgd. unfold handle_get_delete.
  destruct (od_get (OrderedDict hl) ":path") as [p|] eqn:Hp.
  - rewrite (getitem_Some _ _ _ Hp), bind_ret_l.
    destruct (split p "?") as [|w ws]; [by apply eo_quiet|].
    unfold first. rewrite bind_ret_l, (getitem_Some _ _ _ Hm), bind_ret_l.
    destruct (get_handler h2_handlers m w) as [h|].
    + by eapply eo_read_call.
    + destruct (send_empty_quiet s "400" "Bad Request" true self)
        as (out & -> & Hq). by apply eo_quiet.
  - rewrite (getitem_None _ _ Hp). by apply eo_quiet.
Qed.

Lemma http_handle_upload_outcome self s body :
  event_outcome self (DataReceived s body) (http_handle_upload body s self).
Proof.
  rewrite http_handle_upload_unfold.
  destruct (reqs_waiting_upload self !! s) as [hs|] eqn:Hw;
    [|by apply eo_quiet].
  destruct (od_get hs ":path") as [p|] eqn:Hp.
  - rewrite (getitem_Some _ _ _ Hp), bind_ret_l. cbv zeta.
    destruct (split p "?") as [|w ws];
      [unfold first; rewrite bind_raise_l; by apply eo_upload_quiet|].
    unfold first. rewrite bind_ret_l.
    destruct (od_get hs ":method") as [m|] eqn:Hm.
    + rewrite (getitem_Some _ _ _ Hm), bind_ret_l.
      destruct (get_handler h2_handlers m w) as [h|].
      * by apply eo_upload_call.
      * match goal with |- context [send_empty ?a ?b ?c ?d ?e] =>
          destruct (send_empty_quiet a b c d e) as (out & -> & Hq) end.
        by apply eo_upload_quiet.
    + rewrite (getitem_None _ _ Hm). by apply eo_upload_quiet.
  - rewrite (getitem_None _ _ Hp). by apply eo_upload_quiet.
Qed.

Lemma handle_event_outcome ev self :
  event_outcome self ev (handle_event ev self).
Proof.
  destruct ev as [s hl|s body| |].
  - destruct (od_get (OrderedDict hl) ":method") as [m|] eqn:Hm.
    + destruct (str_in m ["GET"; "DELETE"]) eqn:Hgd.
      * unfold handle_event.
        rewrite (getitem_Some _ _ _ Hm), bind_ret_l, Hgd.
        by apply (handle_get_delete_outcome _ _ _ m).
      * destruct (str_in m ["PUT"; "POST"]) eqn:Hpp.
        -- unfold handle_event.
           rewrite (getitem_Some _ _ _ Hm), bind_ret_l, Hgd, Hpp.
           by eapply eo_store.
        -- rewrite (handle_event_other_method _ _ _ _ Hm Hgd Hpp).
           apply eo_quiet. by repeat constructor.
    + unfold handle_event. rewrite (getitem_None _ _ Hm).
      by apply eo_quiet.
  - apply http_handle_upload_outcome.
  - apply eo_quiet. by repeat constructor.
  - by apply eo_quiet.
Qed.

Lemma filter_quiet sid (out : list (Effect Handler)) :
  Forall (λ e, is_call e = false) out → List.filter (is_call_on sid) out = [].
Proof.
  induction 1 as [|e out He _ IH]; simpl; [done|].
  by destruct e.
Qed.

Lemma quiet_no_call (out : list (Effect Handler)) h s hs d :
  Forall (λ e, is_call e = false) out → handler_call h s hs d ∉ out.
Proof.
  intros Hq Hin. rewrite Forall_forall in Hq. by apply Hq in Hin.
Qed.

Lemma pending_count_delete sid s self :
  (pending_count sid
     {| reqs_waiting_upload := delete s (reqs_waiting_upload self) |}
   ≤ pending_count sid self)%nat.
Proof.
  unfold pending_count. simpl.
  destruct (decide (s = sid)) as [->|Hne].
  - rewrite lookup_delete_eq. lia.
  - by rewrite lookup_delete_ne.
Qed.

(** One event: calls on a stream and its pending request against what was
    pending before and whether the event is a request on the stream. *)
Lemma step_calls_bound sid ev self :
  (length (List.filter (is_call_on sid) (handle_event ev self).2)
   + pending_count sid (handle_event ev self).1.2
   ≤ pending_count sid self + (if is_request_on sid ev then 1 else 0))%nat.
Proof.
  pose proof (handle_event_outcome ev self) as Ho.
  destruct (handle_event ev self) as [[r s1] o1].
  inversion Ho as [s hl m h Hm Hgd|s hl m Hm Hpp|s body hs h Hw
                  |s body r' out Hq|ev' r' out Hq]; subst; simpl.
  - destruct (Z.eqb s sid); simpl; lia.
  - unfold pending_count. simpl.
    destruct (Z.eqb_spec s sid) as [->|Hne].
    + rewrite lookup_insert_eq. lia.
    + rewrite lookup_insert_ne by done. lia.
  - destruct (Z.eqb_spec s sid) as [->|Hne]; simpl.
    + unfold pending_count. simpl. rewrite lookup_delete_eq, Hw. lia.
    + pose proof (pending_count_delete sid s self). lia.
  - rewrite (filter_quiet _ _ Hq). simpl.
    pose proof (pending_count_delete sid s self). lia.
  - rewrite (filter_quiet _ _ Hq). simpl. lia.
Qed.

(** One event: where a call on a stream comes from. *)
Lemma step_call_origin sid ev self h hs d :
  handler_call h sid hs d ∈ (handle_event ev self).2 →
  (∃ hl m, ev = RequestReceived sid hl
           ∧ od_get (OrderedDict hl) ":method" = Some m
           ∧ str_in m ["GET"; "DELETE"] = true)
  ∨ (∃ body, ev = DataReceived sid body ∧ d = Some body
             ∧ reqs_waiting_upload self !! sid = Some hs).
Proof.
  pose proof (handle_event_outcome ev self) as Ho.
  destruct (handle_event ev self) as [[r s1] o1].
  inversion Ho as [s hl m h' Hm Hgd|s hl m Hm Hpp|s body hs' h' Hw
                  |s body r' out Hq|ev' r' out Hq]; subst; simpl; intros Hin.
  - apply list_elem_of_singleton in Hin. simplify_eq. left. eauto.
  - by apply elem_of_nil in Hin.
  - apply list_elem_of_singleton in Hin. simplify_eq. right. eauto.
  - by apply quiet_no_call in Hin.
  - by apply quiet_no_call in Hin.
Qed.

(** One event: where a pending request comes from. *)
Lemma step_pending_origin sid ev self hs :
  reqs_waiting_upload (handle_event ev self).1.2 !! sid = Some hs →
  reqs_waiting_upload self !! sid = Some hs
  ∨ (∃ hl, ev = RequestReceived sid hl ∧ hs = OrderedDict hl).
Proof.
  pose proof (handle_event_outcome ev self) as Ho.
  destruct (handle_event ev self) as [[r s1] o1].
  inversion Ho as [s hl m h' Hm Hgd|s hl m Hm Hpp|s body hs' h' Hw
                  |s body r' out Hq|ev' r' out Hq]; subst; simpl; intros Hl;
    try (by left).
  - destruct (decide (s = sid)) as [->|Hne].
    + rewrite lookup_insert_eq in Hl. simplify_eq. right. eauto.
    + rewrite lookup_insert_ne in Hl by done. by left.
  - apply lookup_delete_Some in Hl as [_ Hl]. by left.
  - apply lookup_delete_Some in Hl as [_ Hl]. by left.
Qed.

Lemma for_each_cons_run {A} (body : A → M (Handler := Handler) unit) x xs self :
  for_each (x :: xs) body self
  = match body x self with
    | (Return _, self1, out1) =>
        match for_each xs body self1 with
        | (r, self2, out2) => (r, self2, out1 ++ out2)
        end
    | (Raise e, self1, out1) => (Raise e, self1, out1)
    end.
Proof. done. Qed.

Lemma run_calls_bound sid events :
  ∀ self,
    (length (List.filter (is_call_on sid)
               (for_each events handle_event self).2)
     + pending_count sid (for_each events handle_event self).1.2
     ≤ pending_count sid self
       + length (List.filter (is_request_on sid) events))%nat.
Proof.
  induction events as [|ev events IH]; intros self; [simpl; lia|].
  rewrite for_each_cons_run.
  pose proof (step_calls_bound sid ev self) as Hstep.
  destruct (handle_event ev self) as [[[[]|e] s1] o1]; simpl in Hstep.
  - specialize (IH s1).
    destruct (for_each events handle_event s1) as [[r2 s2] o2].
    simpl in IH |- *. rewrite List.filter_app, length_app.
    destruct (is_request_on sid ev); simpl; lia.
  - simpl. destruct (is_request_on sid ev); simpl; lia.
Qed.

Lemma run_call_origin sid events :
  ∀ self h hs d,
    handler_call h sid hs d ∈ (for_each events handle_event self).2 →
    (∃ hl m pre post,
       events = pre ++ RequestReceived sid hl :: post
       ∧ od_get (OrderedDict hl) ":method" = Some m
       ∧ str_in m ["GET"; "DELETE"] = true)
    ∨ (∃ body pre post,
         events = pre ++ DataReceived sid body :: post
         ∧ d = Some body
         ∧ reqs_waiting_upload self !! sid = Some hs)
    ∨ (∃ hl body pre mid post,
         events = pre ++ RequestReceived sid hl :: mid
                      ++ DataReceived sid body :: post
         ∧ hs = OrderedDict hl ∧ d = Some body).
Proof.
  induction events as [|ev events IH]; intros self h hs d.
  { simpl. intros Hin. by apply elem_of_nil in Hin. }
  rewrite for_each_cons_run.
  pose proof (step_call_origin sid ev self h hs d) as Hcall.
  pose proof (step_pending_origin sid ev self hs) as Hpend.
  assert (handler_call h sid hs d ∈ (handle_event ev self).2 →
          (∃ hl m pre post,
             ev :: events = pre ++ RequestReceived sid hl :: post
             ∧ od_get (OrderedDict hl) ":method" = Some m
             ∧ str_in m ["GET"; "DELETE"] = true)
          ∨ (∃ body pre post,
               ev :: events = pre ++ DataReceived sid body :: post
               ∧ d = Some body
               ∧ reqs_waiting_upload self !! sid = Some hs)) as Hhere.
  { intros Hin. destruct (Hcall Hin) as [(hl & m & -> & Hm & Hgd)|
                                       (body & -> & -> & Hw)].
    - left. by exists hl, m, [], events.
    - right. by exists body, [], events. }
  destruct (handle_event ev self) as [[[[]|e] s1] o1]; simpl in *.
  - specialize (IH s1 h hs d).
    destruct (for_each events handle_event s1) as [[r2 s2] o2].
    simpl in IH |- *. intros Hin. apply elem_of_app in Hin as [Hin|Hin].
    { destruct (Hhere Hin) as [?|?]; eauto. }
    destruct (IH Hin) as [(hl & m & pre & post & -> & Hm & Hgd)
                         |[(body & pre & post & -> & -> & Hw)
                          |(hl & body & pre & mid & post & -> & -> & ->)]].
    + left. by exists hl, m, (ev :: pre), post.
    + destruct (Hpend Hw) as [Hw'|(hl & -> & ->)].
      * right; left. by exists body, (ev :: pre), post.
      * right; right. by exists hl, body, [], pre, post.
    + right; right. by exists hl, body, (ev :: pre), mid, post.
  - intros Hin. destruct (Hhere Hin) as [?|?]; eauto.
Qed.

(** Two splits of a list at elements of a kind that occurs at most once
    are the same split. *)
Lemma unique_split {A} (f : A → bool) (l p1 s1 p2 s2 : list A) (x y : A) :
  (length (List.filter f l) ≤ 1)%nat →
  l = p1 ++ x :: s1 → l = p2 ++ y :: s2 →
  f x = true → f y = true →
  p1 = p2 ∧ x = y ∧ s1 = s2.
Proof.
  intros Hlen H1 H2 Hx Hy. subst l.
  revert p2 H2 Hlen. induction p1 as [|a p1 IH]; intros p2 H2 Hlen.
  - destruct p2 as [|b p2]; simpl in H2; [by simplify_eq|].
    exfalso. simplify_eq. simpl in Hlen. rewrite Hx in Hlen. simpl in Hlen.
    rewrite List.filter_app in Hlen. simpl in Hlen. rewrite Hy in Hlen.
    rewrite length_app in Hlen. simpl in Hlen. lia.
  - destruct p2 as [|b p2]; simpl in H2.
    + exfalso. simplify_eq. simpl in Hlen. rewrite Hy in Hlen.
      simpl in Hlen. rewrite List.filter_app in Hlen. simpl in Hlen.
      rewrite Hx in Hlen. rewrite length_app in Hlen. simpl in Hlen. lia.
    + injection H2 as -> H2.
      destruct (IH p2 H2) as (-> & -> & ->); [|done].
      simpl in Hlen. destruct (f b); simpl in Hlen; lia.
Qed.

Lemma for_each_app_run {A} (body : A → M (Handler := Handler) unit) xs ys self :
  for_each (xs ++ ys) body self
  = match for_each xs body self with
    | (Return _, self1, out1) =>
        match for_each ys body self1 with
        | (r, self2, out2) => (r, self2, out1 ++ out2)
        end
    | (Raise e, self1, out1) => (Raise e, self1, out1)
    end.
Proof.
  revert self. induction xs as [|x xs IH]; intros self.
  - simpl. unfold ret. by destruct (for_each ys body self) as [[? ?] ?].
  - rewrite <- app_comm_cons, !for_each_cons_run.
    destruct (body x self) as [[[[]|e] s1] o1]; [|done].
    rewrite IH.
    destruct (for_each xs body s1) as [[[[]|e] s2] o2]; [|done].
    destruct (for_each ys body s2) as [[r3 s3] o3].
    by rewrite app_assoc.
Qed.

Lemma data_received_run events self :
  data_received events self
  = match for_each events handle_event self with
    | (r, self1, out) => (r, self1, transport_write :: out)
    end.
Proof. done. Qed.

(** The [data_received] calls of a connection process the events of all
    batches in order; they add only the transport writes. *)
Lemma connection_flat (f : Effect Handler → bool) batches :
  f transport_write = false →
  ∀ self,
    (connection batches self).1
    = (for_each (concat batches) handle_event self).1
    ∧ List.filter f (connection batches self).2
      = List.filter f (for_each (concat batches) handle_event self).2.
Proof.
  intros Hf. unfold connection.
  induction batches as [|b batches IH]; intros self; [done|].
  simpl concat. rewrite for_each_cons_run, for_each_app_run.
  rewrite data_received_run.
  destruct (for_each b handle_event self) as [[[[]|e] s1] o1]; simpl.
  - destruct (IH s1) as [IH1 IH2].
    destruct (for_each batches data_received s1) as [[r2 s2] o2].
    destruct (for_each (concat batches) handle_event s1) as [[r3 s3] o3].
    simpl in *. rewrite Hf, !List.filter_app, IH2. by simplify_eq.
  - by rewrite Hf.
Qed.

Lemma elem_of_filter_call sid h hs d (out : list (Effect Handler)) :
  handler_call h sid hs d ∈ out ↔
  handler_call h sid hs d ∈ List.filter (is_call_on sid) out.
Proof.
  rewrite !list_elem_of_In, List.filter_In. simpl.
  rewrite Z.eqb_refl. tauto.
Qed.

(** On a stream that is not pending at the start and whose requests all
    carry PUT or POST, every handler call is a four-argument call that
    follows the stream's headers and a later body-data event. *)
Lemma upload_call_origin self sid events h hs d :
  reqs_waiting_upload self !! sid = None →
  (∀ hl, RequestReceived sid hl ∈ events →
         ∃ m, od_get (OrderedDict hl) ":method" = Some m
              ∧ (m = "PUT" ∨ m = "POST")) →
  handler_call h sid hs d ∈ (for_each events handle_event self).2 →
  ∃ hl body pre mid post,
    events = pre ++ RequestReceived sid hl :: mid
                 ++ DataReceived sid body :: post
    ∧ hs = OrderedDict hl ∧ d = Some body.
Proof.
  intros Hw Hupload Hin.
  destruct (run_call_origin sid events self h hs d Hin)
    as [(hl & m & pre & post & -> & Hm & Hgd)
       |[(body & pre & post & _ & _ & Hw')|Hdone]];
    [exfalso|congruence|done].
  destruct (Hupload hl) as (m' & Hm' & Hpp).
  { apply elem_of_app. right. by left. }
  rewrite Hm in Hm'. simplify_eq. by destruct Hpp as [-> | ->].
Qed.

(** C2: take a connection on which a stream has no pending request at the
    start (as on a new connection) and every request-received event of the
    stream carries PUT or POST. Over all its [data_received] calls the
    handler calls on the stream are at most as many as the stream's
    request-received events: at most one for a stream with one request, as
    stream identifiers are not reused. At any point of the connection, every
    handler call made so far on the stream carries the headers of a request
    of the stream and the bytes of a body-data event for the stream that
    came after those headers, both among the events seen so far. And when
    the stream has one request and no body-data event for the stream follows
    it, no handler is called on the stream at all. *)
Theorem upload_dispatched_after_body (self : H2Protocol) (stream_id : Z)
    (batches : list (list Event)) :
  let events := concat batches in
  let out := (connection batches self).2 in
  reqs_waiting_upload self !! stream_id = None →
  (∀ hl, RequestReceived stream_id hl ∈ events →
         ∃ m, od_get (OrderedDict hl) ":method" = Some m
              ∧ (m = "PUT" ∨ m = "POST")) →
  (length (List.filter (is_call_on stream_id) out)
   ≤ length (List.filter (is_request_on stream_id) events))%nat
  ∧ (∀ seen later h headers data,
       batches = seen ++ later →
       handler_call h stream_id headers data ∈ (connection seen self).2 →
       ∃ hl body pre mid post,
         concat seen = pre ++ RequestReceived stream_id hl :: mid
                           ++ DataReceived stream_id body :: post
         ∧ headers = OrderedDict hl ∧ data = Some body)
  ∧ ((length (List.filter (is_request_on stream_id) events) ≤ 1)%nat →
     ∀ pre hl post,
       events = pre ++ RequestReceived stream_id hl :: post →
       List.filter (is_data_on stream_id) post = [] →
       List.filter (is_call_on stream_id) out = []).
Proof.
  intros events out Hw Hupload.
  assert (∀ bs, List.filter (is_call_on stream_id) (connection bs self).2
                = List.filter (is_call_on stream_id)
                    (for_each (concat bs) handle_event self).2) as Hflat.
  { intros bs. by apply connection_flat. }
  split; [|split].
  - subst out. rewrite Hflat. fold events.
    pose proof (run_calls_bound stream_id events self) as Hb.
    unfold pending_count at 2 in Hb. rewrite Hw in Hb. lia.
  - intros seen later h headers data -> Hin.
    apply elem_of_filter_call in Hin. rewrite Hflat in Hin.
    apply elem_of_filter_call in Hin.
    apply (upload_call_origin self stream_id (concat seen) h); [done| |done].
    intros hl Hhl. apply Hupload. subst events.
    rewrite concat_app. apply elem_of_app. by left.
  - intros Hlen pre hl post Hev Hnodata. subst out. rewrite Hflat.
    fold events.
    destruct (List.filter (is_call_on stream_id)
                (for_each events handle_event self).2) as [|e l] eqn:Hf;
      [done|exfalso].
    assert (In e (List.filter (is_call_on stream_id)
                    (for_each events handle_event self).2)) as Hin
      by (rewrite Hf; by left).
    apply List.filter_In in Hin as [Hin Hcall].
    destruct e as [| | | | |h s hs d]; try done.
    simpl in Hcall. apply Z.eqb_eq in Hcall as ->.
    apply list_elem_of_In in Hin.
    destruct (upload_call_origin self stream_id events h hs d Hw Hupload Hin)
      as (hl' & body & pre' & mid & post' & Hev' & _ & _).
    destruct (unique_split (is_request_on stream_id) events
                pre post pre' (mid ++ DataReceived stream_id body :: post')
                (RequestReceived stream_id hl)
                (RequestReceived stream_id hl') Hlen Hev Hev')
      as (_ & _ & ->); [simpl; apply Z.eqb_refl..|].
    rewrite List.filter_app in Hnodata. simpl in Hnodata.
    rewrite Z.eqb_refl in Hnodata.
    by apply app_eq_nil in Hnodata as [_ ?].
Qed.

End Properties.

(** * Further properties *)

Section MoreProperties.

Context {Handler : Type} {globals : Globals Handler}.

(** ** Methods *)

Lemma str_in_get_delete_inv m :
  str_in m ["GET"; "DELETE"] = true → m = "GET" ∨ m = "DELETE".
Proof.
  unfold str_in. simpl. rewrite orb_false_r. intros H.
  apply orb_true_iff in H as [H|H]; apply String.eqb_eq in H; auto.
Qed.

Lemma str_in_put_post_inv m :
  str_in m ["PUT"; "POST"] = true → m = "PUT" ∨ m = "POST".
Proof.
  unfold str_in. simpl. rewrite orb_false_r. intros H.
  apply orb_true_iff in H as [H|H]; apply String.eqb_eq in H; auto.
Qed.

Lemma str_in_false_inv m a b :
  str_in m [a; b] = false → m ≠ a ∧ m ≠ b.
Proof.
  unfold str_in. simpl. rewrite orb_false_r. intros H.
  apply orb_false_iff in H as [Ha Hb].
  by apply String.eqb_neq in Ha, Hb.
Qed.

(** ** The step relation describes the loop body *)

Lemma send_empty_bad_request stream_id (self : H2Protocol) :
  send_empty stream_id "400" "Bad Request" true self
  = (Return tt, self, bad_request_response stream_id).
Proof. done. Qed.

Lemma handle_event_step ev self : event_step self ev (handle_event ev self).
Proof.
  destruct ev as [s hl|s body| |]; [| |apply es_settings|apply es_other].
  - destruct (od_get (OrderedDict hl) ":method") as [m|] eqn:Hm.
    2:{ unfold handle_event. rewrite (getitem_None _ _ Hm).
        by apply es_no_method. }
    destruct (str_in m ["GET"; "DELETE"]) eqn:Hgd.
    + pose proof (str_in_get_delete_inv _ Hgd) as Hgd'.
      rewrite (handle_event_get_delete _ _ _ _ Hm Hgd').
      destruct (od_get (OrderedDict hl) ":path") as [p|] eqn:Hp.
      * destruct (handle_get_delete_routed self s _ _ _ Hm Hp)
          as (w & ws & Hs & ->).
        destruct (get_handler h2_handlers m w) as [h|] eqn:Hh.
        -- by eapply es_read_call.
        -- rewrite send_empty_bad_request. by eapply es_read_400.
      * unfold handle_get_delete. rewrite (getitem_None _ _ Hp).
        by eapply es_read_no_path.
    + destruct (str_in m ["PUT"; "POST"]) eqn:Hpp.
      * pose proof (str_in_put_post_inv _ Hpp) as Hpp'.
        rewrite (handle_event_put_post _ _ _ _ Hm Hpp').
        by eapply es_store.
      * rewrite (handle_event_other_method _ _ _ _ Hm Hgd Hpp).
        destruct (str_in_false_inv _ _ _ Hgd), (str_in_false_inv _ _ _ Hpp).
        by apply es_unknown.
  - simpl. destruct (reqs_waiting_upload self !! s) as [hs|] eqn:Hw.
    2:{ rewrite http_handle_upload_unfold, Hw. by apply es_orphan. }
    destruct (od_get hs ":path") as [p|] eqn:Hp.
    2:{ rewrite http_handle_upload_unfold, Hw, (getitem_None _ _ Hp).
        by eapply es_upload_no_path. }
    destruct (od_get hs ":method") as [m|] eqn:Hm.
    + destruct (http_handle_upload_routed self s body _ _ _ Hw Hm Hp)
        as (w & ws & Hs & ->).
      destruct (get_handler h2_handlers m w) as [h|] eqn:Hh.
      * by eapply es_upload_call.
      * rewrite send_empty_bad_request. by eapply es_upload_400.
    + rewrite http_handle_upload_unfold, Hw.
      rewrite (getitem_Some _ _ _ Hp), bind_ret_l. cbv zeta.
      destruct (split_cons p "?") as (w & ws & ->).
      unfold first. rewrite bind_ret_l, (getitem_None _ _ Hm).
      by eapply es_upload_no_method.
Qed.

(** ** The path before the query *)

(** X1: [path.split("?")] always has a first piece, so [url_split[0]] is
    defined. That piece holds no [?]; it is the whole path when the path
    holds none, and otherwise the path is the piece, a [?] and a rest whose
    split gives the other pieces. *)
Theorem split_first_piece (path : string) :
  ∃ url_path rest,
    split path "?" = url_path :: rest
    ∧ ("?"%char ∉ list_ascii_of_string url_path)
    ∧ ((rest = [] ∧ path = url_path)
       ∨ (∃ query, path = (url_path +:+ String "?" query)
                   ∧ rest = split query "?")).
Proof.
  induction path as [|c path IH]; simpl.
  - exists "", []. split; [done|]. split; [|by left].
    simpl. apply not_elem_of_nil.
  - destruct (Ascii.eqb_spec c "?") as [->|Hc].
    + exists "", (split path "?"). split; [done|]. split.
      * simpl. apply not_elem_of_nil.
      * right. by exists path.
    + destruct IH as (w & ws & -> & Hw & Hcases).
      exists (String c w), ws. split; [done|]. split.
      * simpl. apply not_elem_of_cons. split; [congruence|done].
      * destruct Hcases as [[-> ->]|(q & -> & ->)]; [by left|].
        right. by exists q.
Qed.

(** ** Header dictionaries *)

Lemma od_get_setitem d k v k' :
  od_get (od_setitem d k v) k'
  = if String.eqb k k' then Some v else od_get d k'.
Proof.
  induction d as [|[k0 v0] d IH]; simpl.
  - done.
  - destruct (String.eqb_spec k0 k) as [->|Hne]; simpl.
    + by destruct (String.eqb k k').
    + rewrite IH. destruct (String.eqb_spec k0 k') as [->|Hne'];
        [|done].
      destruct (String.eqb_spec k k') as [->|_]; [done|done].
Qed.

Lemma od_get_app d1 d2 k :
  od_get (d1 ++ d2) k
  = match od_get d1 k with Some v => Some v | None => od_get d2 k end.
Proof.
  induction d1 as [|[k0 v0] d1 IH]; simpl; [done|].
  by destruct (String.eqb k0 k).
Qed.

Lemma od_get_fold items : ∀ d k,
  od_get (fold_left (λ d kv, od_setitem d kv.1 kv.2) items d) k
  = match od_get (rev items) k with
    | Some v => Some v
    | None => od_get d k
    end.
Proof.
  induction items as [|[k0 v0] items IH]; intros d k; simpl; [done|].
  rewrite IH, od_get_app, od_get_setitem. simpl.
  destruct (od_get (rev items) k); [done|].
  by destruct (String.eqb k0 k).
Qed.

Lemma od_setitem_keys d k v :
  (od_setitem d k v).*1
  = match od_get d k with Some _ => d.*1 | None => d.*1 ++ [k] end.
Proof.
  induction d as [|[k0 v0] d IH]; csimpl; [done|].
  destruct (String.eqb_spec k0 k) as [->|Hne]; csimpl; [done|].
  rewrite IH. by destruct (od_get d k).
Qed.

Lemma od_get_None_keys d k : od_get d k = None → k ∉ d.*1.
Proof.
  induction d as [|[k0 v0] d IH]; csimpl; [intros; apply not_elem_of_nil|].
  destruct (String.eqb_spec k0 k) as [->|Hne]; [done|].
  intros H. apply not_elem_of_cons. split; [done|by apply IH].
Qed.

Lemma od_setitem_NoDup d k v : NoDup d.*1 → NoDup (od_setitem d k v).*1.
Proof.
  intros Hd. rewrite od_setitem_keys.
  destruct (od_get d k) eqn:Hk; [done|].
  apply NoDup_app. split; [done|]. split.
  - intros x Hx Hin. apply list_elem_of_singleton in Hin as ->.
    by apply od_get_None_keys in Hk.
  - apply NoDup_singleton.
Qed.

(** X2: in [OrderedDict(event.headers)] every name occurs once, and the
    value found under a name is the value of the last pair with that name
    in the event's header list (the first such pair of the reversed list).
    The method and the path used for routing are read this way. *)
Theorem OrderedDict_last_wins (items : list (string * string)) (k : string) :
  od_get (OrderedDict items) k = od_get (rev items) k
  ∧ NoDup (OrderedDict items).*1.
Proof.
  split.
  - unfold OrderedDict. rewrite od_get_fold. simpl.
    by destruct (od_get (rev items) k).
  - unfold OrderedDict.
    assert (∀ d : Headers, NoDup d.*1 →
              NoDup (fold_left (λ d kv, od_setitem d kv.1 kv.2) items d).*1)
      as Hfold.
    { induction items as [|[k0 v0] items IH]; intros d Hd; simpl; [done|].
      apply IH. by apply od_setitem_NoDup. }
    apply Hfold. simpl. apply NoDup_nil_2.
Qed.

(** ** Registration *)

Lemma get_handler_loop_matched (hs post : list (HandlerConditionT * Handler))
    d d' method path :
  (∃ i c h, hs !! i = Some (c, h) ∧ c method path = true) →
  get_handler_loop (hs ++ post) d method path
  = get_handler_loop hs d' method path.
Proof.
  induction hs as [|[c0 h0] hs IH]; intros (i & c & h & Hi & Hc).
  - by destruct i.
  - simpl. destruct (c0 method path) eqn:Hc0; [reflexivity|].
    apply IH. destruct i as [|i]; simpl in Hi; [simplify_eq; congruence|].
    by exists i, c, h.
Qed.

(** X3: registering never overrides. For a request that an entry of the
    table matches, [register_handler] and [register_default_handler] leave
    the result of [get_handler] as it was. For a request that no entry
    matches, the new entry decides if its condition holds, and the default
    handler does otherwise. *)
Theorem registration_extends (self : HandlerList Handler)
    (c : HandlerConditionT) (h d : Handler) (method path : string) :
  ((∃ i c' h', handlers self !! i = Some (c', h') ∧ c' method path = true) →
   get_handler (register_handler self c h) method path
   = get_handler self method path
   ∧ get_handler (register_default_handler self d) method path
     = get_handler self method path)
  ∧ ((∀ i c' h', handlers self !! i = Some (c', h') →
                 c' method path = false) →
     get_handler (register_handler self c h) method path
     = (if c method path then Some h else default_handler self)
     ∧ get_handler (register_default_handler self d) method path = Some d).
Proof.
  split.
  - intros Hm. unfold get_handler. simpl. split.
    + by apply get_handler_loop_matched.
    + rewrite <- (app_nil_r (handlers self)).
      rewrite (get_handler_loop_matched _ [] (Some d) (default_handler self));
        [|done].
      by rewrite app_nil_r.
  - intros Hnone.
    assert (Forall (λ e, e.1 method path = false) (handlers self)) as Hall.
    { apply Forall_lookup. intros i [c' h'] Hi. simpl. eauto. }
    unfold get_handler. simpl. split.
    + by rewrite get_handler_loop_app.
    + by apply get_handler_loop_none.
Qed.

(** ** The configured table *)

(** X4: on a new table, [register_api_handlers] followed by
    [register_static_handlers] routes every request to a handler, never to
    none. GET goes to the root handler on the root path, else to [api_get]
    under the data prefix, else to [get_file]; POST goes to [api_post]
    under the data prefix (also when the operations prefix matches too),
    else to [api_op] under the operations prefix; PUT and DELETE go to
    [api_put] and [api_delete] under the data prefix; everything else goes
    to [unknown_req_handler]. *)
Theorem configured_routes (API_ROOT API_ROOT_data API_ROOT_ops : string)
    (hs : HttpHandlers Handler) (method path : string) :
  let t :=
    register_static_handlers
      (register_api_handlers HandlerList_init
         API_ROOT API_ROOT_data API_ROOT_ops hs) hs in
  let on_data := startswith path API_ROOT_data in
  let on_ops := startswith path API_ROOT_ops in
  get_handler t method path
  = Some
      (if String.eqb method "GET" then
         if String.eqb path API_ROOT then api_root_handler hs
         else if on_data then api_get hs else get_file hs
       else if String.eqb method "POST" then
         if on_data then api_post hs
         else if on_ops then api_op hs else unknown_req_handler hs
       else if String.eqb method "PUT" then
         if on_data then api_put hs else unknown_req_handler hs
       else if String.eqb method "DELETE" then
         if on_data then api_delete hs else unknown_req_handler hs
       else unknown_req_handler hs).
Proof.
  intros t on_data on_ops. subst t on_data on_ops.
  unfold get_handler. simpl.
  destruct (String.eqb_spec method "GET") as [->|Hget]; simpl.
  { destruct (String.eqb path API_ROOT); [done|].
    by destruct (startswith path API_ROOT_data). }
  destruct (String.eqb_spec method "POST") as [->|Hpost]; simpl.
  { destruct (startswith path API_ROOT_data); [done|].
    by destruct (startswith path API_ROOT_ops). }
  destruct (String.eqb_spec method "PUT") as [->|Hput]; simpl.
  { by destruct (startswith path API_ROOT_data). }
  destruct (String.eqb_spec method "DELETE") as [->|Hdel]; simpl.
  { by destruct (startswith path API_ROOT_data). }
  done.
Qed.

(** X5: the order of the two registrations matters. With
    [register_static_handlers] first, its entry for every GET comes before
    the API entries: every GET goes to [get_file], also on the root path and
    under the data prefix. The other methods are routed as in the other
    order. *)
Theorem static_first_shadows_api_get
    (API_ROOT API_ROOT_data API_ROOT_ops : string)
    (hs : HttpHandlers Handler) (method path : string) :
  let t :=
    register_api_handlers (register_static_handlers HandlerList_init hs)
      API_ROOT API_ROOT_data API_ROOT_ops hs in
  let t' :=
    register_static_handlers
      (register_api_handlers HandlerList_init
         API_ROOT API_ROOT_data API_ROOT_ops hs) hs in
  get_handler t "GET" path = Some (get_file hs)
  ∧ (method ≠ "GET" → get_handler t method path = get_handler t' method path).
Proof.
  intros t t'. subst t t'. split; [done|].
  intros Hm. unfold get_handler. simpl.
  apply String.eqb_neq in Hm. by rewrite Hm.
Qed.

(** ** Invariants of a connection *)

(** A property of the object kept by every event, a property of every
    effect and a property of every result carry over to the loop. *)
Lemma run_invariant (I : H2Protocol → Prop) (Q : Effect Handler → Prop)
    (R : result unit → Prop) (E : Event → Prop) events :
  (∀ ev s, E ev → I s →
           I (handle_event ev s).1.2
           ∧ Forall Q (handle_event ev s).2
           ∧ R (handle_event ev s).1.1) →
  R (Return tt) →
  Forall E events →
  ∀ self, I self →
    I (for_each events handle_event self).1.2
    ∧ Forall Q (for_each events handle_event self).2
    ∧ R (for_each events handle_event self).1.1.
Proof.
  intros Hstep HR HE.
  induction HE as [|ev events Hev _ IH]; intros self HI.
  - simpl. by repeat split.
  - rewrite for_each_cons_run.
    destruct (Hstep ev self Hev HI) as (HI1 & HQ1 & HR1).
    destruct (handle_event ev self) as [[[[]|e] s1] o1]; simpl in *; [|done].
    destruct (IH s1 HI1) as (HI2 & HQ2 & HR2).
    destruct (for_each events handle_event s1) as [[r2 s2] o2]; simpl in *.
    split; [done|]. split; [by apply Forall_app|done].
Qed.

Lemma connection_invariant (I : H2Protocol → Prop) (Q : Effect Handler → Prop)
    (R : result unit → Prop) (E : Event → Prop) batches :
  (∀ ev s, E ev → I s →
           I (handle_event ev s).1.2
           ∧ Forall Q (handle_event ev s).2
           ∧ R (handle_event ev s).1.1) →
  Q transport_write →
  R (Return tt) →
  Forall E (concat batches) →
  ∀ self, I self →
    I (connection batches self).1.2
    ∧ Forall Q (connection batches self).2
    ∧ R (connection batches self).1.1.
Proof.
  intros Hstep HQ HR. unfold connection.
  induction batches as [|b batches IH]; intros HE self HI.
  - simpl. by repeat split.
  - simpl in HE. apply Forall_app in HE as [HEb HE].
    rewrite for_each_cons_run, data_received_run.
    destruct (run_invariant I Q R E b Hstep HR HEb self HI)
      as (HI1 & HQ1 & HR1).
    destruct (for_each b handle_event self) as [[[[]|e] s1] o1]; simpl in *.
    + destruct (IH HE s1 HI1) as (HI2 & HQ2 & HR2).
      destruct (for_each batches data_received s1) as [[r2 s2] o2].
      simpl in *. split; [done|]. split; [|done].
      constructor; [done|]. by apply Forall_app.
    + split; [done|]. split; [|done]. by constructor.
Qed.

Lemma pending_are_uploads_insert self s hs m :
  pending_are_uploads self →
  od_get hs ":method" = Some m → m = "PUT" ∨ m = "POST" →
  pending_are_uploads
    {| reqs_waiting_upload := <[s := hs]> (reqs_waiting_upload self) |}.
Proof.
  intros HI Hm Hpp sid hs' Hl. simpl in Hl.
  apply lookup_insert_Some in Hl as [[_ <-]|[_ Hl]]; [eauto|by eapply HI].
Qed.

Lemma pending_are_uploads_delete self s :
  pending_are_uploads self →
  pending_are_uploads
    {| reqs_waiting_upload := delete s (reqs_waiting_upload self) |}.
Proof.
  intros HI sid hs' Hl. simpl in Hl.
  apply lookup_delete_Some in Hl as [_ Hl]. by eapply HI.
Qed.

Lemma pending_are_uploads_init : pending_are_uploads H2Protocol_init.
Proof. intros sid hs Hl. simpl in Hl. by rewrite lookup_empty in Hl. Qed.

(** One event keeps the pending requests uploads. *)
Lemma step_pending_are_uploads ev self :
  pending_are_uploads self → pending_are_uploads (handle_event ev self).1.2.
Proof.
  intros HI. pose proof (handle_event_step ev self) as Hes.
  destruct (handle_event ev self) as [[r s1] o1].
  inversion Hes; subst; simpl; try done;
    try (by apply pending_are_uploads_delete).
  by eapply pending_are_uploads_insert.
Qed.

(** X6: every handler call of a connection is the choice of the route
    table. On a connection whose pending requests are uploads at the start
    (none are, on a new connection), each call [h(self, stream_id, headers)]
    or [h(self, stream_id, headers, data)] performed by any [data_received]
    has [h] equal to [get_handler] of the [:method] of those headers and of
    their [:path] up to the first [?]; the three-argument call is made for
    GET and DELETE only, the four-argument call for PUT and POST only. The
    pending requests are uploads afterwards as well. *)
Theorem handler_calls_are_routed (self : H2Protocol)
    (batches : list (list Event)) :
  pending_are_uploads self →
  pending_are_uploads (connection batches self).1.2
  ∧ ∀ h stream_id headers data,
      handler_call h stream_id headers data ∈ (connection batches self).2 →
      ∃ method path url_path rest,
        od_get headers ":method" = Some method
        ∧ od_get headers ":path" = Some path
        ∧ split path "?" = url_path :: rest
        ∧ get_handler h2_handlers method url_path = Some h
        ∧ match data with
          | None => method = "GET" ∨ method = "DELETE"
          | Some _ => method = "PUT" ∨ method = "POST"
          end.
Proof.
  intros HI.
  pose (Q := λ e : Effect Handler,
          ∀ h stream_id headers data,
            e = handler_call h stream_id headers data →
            ∃ method path url_path rest,
              od_get headers ":method" = Some method
              ∧ od_get headers ":path" = Some path
              ∧ split path "?" = url_path :: rest
              ∧ get_handler h2_handlers method url_path = Some h
              ∧ match data with
                | None => method = "GET" ∨ method = "DELETE"
                | Some _ => method = "PUT" ∨ method = "POST"
                end).
  destruct (connection_invariant pending_are_uploads Q (λ _, True)
              (λ _, True) batches) with (self := self)
    as (HI' & HQ & _); [|done|done|by apply Forall_true|done|].
  - intros ev s _ HIs. split; [by apply step_pending_are_uploads|].
    split; [|done].
    pose proof (handle_event_step ev s) as Hes.
    destruct (handle_event ev s) as [[r s1] o1].
    inversion Hes; subst; simpl; repeat constructor; try done.
    + intros h' sid hs' d Heq. simplify_eq. by exists m, p, w, ws.
    + intros h' sid hs' d Heq. simplify_eq.
      match goal with
      | Hw : reqs_waiting_upload s !! _ = Some _ |- _ =>
          destruct (HIs _ _ Hw) as (m' & Hm' & Hpp)
      end.
      exists m, p, w, ws. repeat split; try done. congruence.
  - split; [done|]. intros h sid hs d Hin.
    rewrite Forall_forall in HQ. by eapply HQ.
Qed.

(** ** Responses *)

Lemma get_handler_None_default (t : HandlerList Handler) method path :
  get_handler t method path = None → default_handler t = None.
Proof.
  unfold get_handler. destruct t as [hs d]. simpl.
  induction hs as [|e hs IH]; simpl; [done|].
  by destruct (e.1 method path).
Qed.

(** X7: the only response this module sends is the 400 response, and only
    with a table that has no default handler. Every [send_headers] of a
    connection carries status 400, content type text/plain, content length
    16 and the server name; every [send_data] carries the sixteen bytes of
    "400 Bad Request" and a line feed and ends the stream. *)
Theorem responses_are_bad_request (self : H2Protocol)
    (batches : list (list Event)) :
  ∀ e, e ∈ (connection batches self).2 →
    match e with
    | conn_send_headers stream_id response_headers =>
        response_headers
        = [ (":status", hv_str "400");
            ("content-type", hv_str "text/plain");
            ("content-length", hv_int 16);
            ("server", hv_str SERVER_NAME) ]
        ∧ default_handler h2_handlers = None
    | conn_send_data stream_id data end_stream =>
        data = encode ("400 Bad Request" +:+ LF) ∧ end_stream = true
        ∧ default_handler h2_handlers = None
    | _ => True
    end.
Proof.
  pose (Q := λ e : Effect Handler,
          match e with
          | conn_send_headers stream_id response_headers =>
              response_headers
              = [ (":status", hv_str "400");
                  ("content-type", hv_str "text/plain");
                  ("content-length", hv_int 16);
                  ("server", hv_str SERVER_NAME) ]
              ∧ default_handler h2_handlers = None
          | conn_send_data stream_id data end_stream =>
              data = encode ("400 Bad Request" +:+ LF) ∧ end_stream = true
              ∧ default_handler h2_handlers = None
          | _ => True
          end).
  destruct (connection_invariant (λ _, True) Q (λ _, True) (λ _, True)
              batches) with (self := self)
    as (_ & HQ & _); [|done|done|by apply Forall_true|done|].
  - intros ev s _ _. split; [done|]. split; [|done].
    pose proof (handle_event_step ev s) as Hes.
    destruct (handle_event ev s) as [[r s1] o1].
    inversion Hes; subst; simpl; repeat constructor; try done;
      by eapply get_handler_None_default.
  - intros e Hin. rewrite Forall_forall in HQ. by apply HQ.
Qed.

(** ** Exceptions *)




(** ** Streams do not interfere *)

Lemma step_frame sid ev s :
  stream_of_event ev ≠ Some sid →
  reqs_waiting_upload (handle_event ev s).1.2 !! sid
  = reqs_waiting_upload s !! sid
  ∧ Forall (λ e, stream_of_effect e ≠ Some sid) (handle_event ev s).2.
Proof.
  intros Hev. pose proof (handle_event_step ev s) as Hes.
  destruct (handle_event ev s) as [[r s1] o1].
  inversion Hes; subst; simpl in *;
    (split; [|repeat constructor; simpl; congruence]);
    try done.
  - apply lookup_insert_ne. congruence.
  - apply lookup_delete_ne. congruence.
  - apply lookup_delete_ne. congruence.
  - apply lookup_delete_ne. congruence.
  - apply lookup_delete_ne. congruence.
Qed.

(** X10: events of other streams leave a stream alone. Over a connection
    none of whose events belongs to the stream, the stream's entry in
    [reqs_waiting_upload] is the same at the end as at the start, also when
    a [data_received] raised on the way, and no response is sent and no
    handler is called on the stream. So a pending request stays until a body
    event, or new headers, arrive for its own stream. *)
Theorem other_streams_untouched (self : H2Protocol) (stream_id : Z)
    (batches : list (list Event)) :
  (∀ ev, ev ∈ concat batches → stream_of_event ev ≠ Some stream_id) →
  reqs_waiting_upload (connection batches self).1.2 !! stream_id
  = reqs_waiting_upload self !! stream_id
  ∧ ∀ e, e ∈ (connection batches self).2 →
         stream_of_effect e ≠ Some stream_id.
Proof.
  intros Hev.
  destruct (connection_invariant
              (λ s, reqs_waiting_upload s !! stream_id
                    = reqs_waiting_upload self !! stream_id)
              (λ e, stream_of_effect e ≠ Some stream_id)
              (λ _, True)
              (λ ev, stream_of_event ev ≠ Some stream_id) batches)
    with (self := self) as (HI & HQ & _); [|done|done| |done|].
  - intros ev s HE HIs. destruct (step_frame stream_id ev s HE) as [Hl HQ].
    split; [congruence|]. by split.
  - by apply Forall_forall.
  - split; [done|]. by apply Forall_forall.
Qed.

(** ** The transport write *)



(** ** Settings *)




(** ** Uploads *)

Lemma connection_effects_flat batches : ∀ self (e : Effect Handler),
  e ∈ (for_each (concat batches) handle_event self).2 →
  e ∈ (connection batches self).2.
Proof.
  unfold connection.
  induction batches as [|b batches IH]; intros self e; [done|].
  simpl concat. rewrite for_each_cons_run, for_each_app_run.
  rewrite data_received_run.
  destruct (for_each b handle_event self) as [[[[]|e'] s1] o1]; simpl.
  - specialize (IH s1 e).
    destruct (for_each batches data_received s1) as [[r2 s2] o2].
    destruct (for_each (concat batches) handle_event s1) as [[r3 s3] o3].
    simpl in *. rewrite !elem_of_app, elem_of_cons, elem_of_app. tauto.
  - rewrite elem_of_cons. tauto.
Qed.

(** X13: an upload reaches its handler. On a connection that does not
    raise, take a PUT or POST request-received event with a path, followed
    by events of other streams only and then by a body-data event for its
    stream. If the table yields a handler for the method and the path up to
    the first [?], that handler is called with the stored headers and the
    bytes of that body-data event; if it yields none, the 400 response is
    sent on the stream. *)
Theorem upload_reaches_handler (self : H2Protocol)
    (batches : list (list Event)) (pre mid post : list Event)
    (stream_id : Z) (hl : list (string * string)) (method path url_path : string)
    (rest : list string) (body : bytes) :
  concat batches
  = pre ++ RequestReceived stream_id hl :: mid
        ++ DataReceived stream_id body :: post →
  od_get (OrderedDict hl) ":method" = Some method →
  method = "PUT" ∨ method = "POST" →
  od_get (OrderedDict hl) ":path" = Some path →
  split path "?" = url_path :: rest →
  (∀ ev, ev ∈ mid → stream_of_event ev ≠ Some stream_id) →
  (connection batches self).1.1 = Return tt →
  match get_handler h2_handlers method url_path with
  | Some h =>
      handler_call h stream_id (OrderedDict hl) (Some body)
      ∈ (connection batches self).2
  | None =>
      ∀ e, e ∈ bad_request_response stream_id →
           e ∈ (connection batches self).2
  end.
Proof.
  intros Hconcat Hm Hpp Hp Hs Hmid Hret.
  destruct (connection_flat (λ _, false) batches eq_refl self) as [H1 _].
  rewrite H1 in Hret. clear H1.
  assert (match get_handler h2_handlers method url_path with
          | Some h =>
              handler_call h stream_id (OrderedDict hl) (Some body)
              ∈ (for_each (concat batches) handle_event self).2
          | None =>
              ∀ e, e ∈ bad_request_response stream_id →
                   e ∈ (for_each (concat batches) handle_event self).2
          end) as Hflat.
  2:{ destruct (get_handler h2_handlers method url_path).
      - by apply connection_effects_flat.
      - intros e He. by apply connection_effects_flat, Hflat. }
  revert Hret. rewrite Hconcat, for_each_app_run.
  destruct (for_each pre handle_event self) as [[[[]|e0] s1] o1]; [|done].
  rewrite for_each_cons_run, (handle_event_put_post _ _ _ _ Hm Hpp).
  rewrite for_each_app_run.
  set (s2 := {| reqs_waiting_upload :=
                  <[stream_id := OrderedDict hl]> (reqs_waiting_upload s1) |}).
  destruct (run_invariant
              (λ s, reqs_waiting_upload s !! stream_id
                    = Some (OrderedDict hl))
              (λ _, True) (λ _, True)
              (λ ev, stream_of_event ev ≠ Some stream_id) mid)
    with (self := s2) as (Hl3 & _ & _);
    [|done|by apply Forall_forall|by apply lookup_insert_eq|].
  { intros ev s HE HIs. destruct (step_frame stream_id ev s HE) as [Hl _].
    split; [congruence|]. split; [by apply Forall_true|done]. }
  destruct (for_each mid handle_event s2) as [[[[]|e0] s3] o3]; [|done].
  simpl in Hl3. rewrite for_each_cons_run.
  destruct (http_handle_upload_routed s3 stream_id body _ _ _ Hl3 Hm Hp)
    as (w & ws & Hs' & Hrun).
  rewrite Hs in Hs'. simplify_eq. simpl handle_event. rewrite Hrun.
  destruct (get_handler h2_handlers method w) as [h|].
  - destruct (for_each post handle_event _) as [[r4 s4] o4]. simpl.
    intros _. rewrite !elem_of_app, elem_of_cons. auto.
  - rewrite send_empty_bad_request.
    destruct (for_each post handle_event _) as [[r4 s4] o4]. simpl.
    intros _ e He. unfold bad_request_response in *.
    rewrite !elem_of_app, !elem_of_cons. rewrite !elem_of_cons in He.
    destruct He as [->|[->|He]]; [auto 6..|by apply elem_of_nil in He].
Qed.

Lemma for_each_singleton {A} (body : A → M (Handler := Handler) unit) x self :
  for_each [x] body self = body x self.
Proof.
  simpl. unfold bind, ret.
  destruct (body x self) as [[[[]|e] s1] o1]; [|done].
  by rewrite app_nil_r.
Qed.

Lemma data_clears_pending sid d s :
  reqs_waiting_upload (handle_event (DataReceived sid d) s).1.2 !! sid = None.
Proof.
  pose proof (handle_event_step (DataReceived sid d) s) as Hes.
  destruct (handle_event (DataReceived sid d) s) as [[r s1] o1].
  inversion Hes; subst; simpl; try done; apply lookup_delete_eq.
Qed.

Lemma step_keeps_absent sid ev s :
  is_request_on sid ev = false →
  reqs_waiting_upload s !! sid = None →
  reqs_waiting_upload (handle_event ev s).1.2 !! sid = None.
Proof.
  intros Hev Hl. pose proof (handle_event_step ev s) as Hes.
  destruct (handle_event ev s) as [[r s1] o1].
  inversion Hes; subst; simpl in *; try done;
    try (by apply lookup_delete_None; right).
  apply lookup_insert_None. split; [done|].
  intros ->. by rewrite Z.eqb_refl in Hev.
Qed.

(** An event that does nothing where the events before it leave the object
    can be dropped from the end of the last batch. *)
Lemma connection_drop_last batches b ev self :
  (∀ s, (for_each (concat batches ++ b) handle_event self).1
        = (Return tt, s) →
        handle_event ev s = (Return tt, s, [])) →
  connection (batches ++ [b ++ [ev]]) self = connection (batches ++ [b]) self.
Proof.
  intros Hnoop. unfold connection. rewrite !for_each_app_run.
  destruct (connection_flat (λ _, false) batches eq_refl self) as [H1 _].
  unfold connection in H1. rewrite for_each_app_run in Hnoop.
  destruct (for_each batches data_received self) as [[[[]|e] s1] o1];
    [|done].
  destruct (for_each (concat batches) handle_event self) as [[r1' s1'] o1'].
  simpl in H1. injection H1 as <- <-.
  rewrite !for_each_singleton, !data_received_run, for_each_app_run.
  destruct (for_each b handle_event s1) as [[[[]|e] s2] o2]; [|done].
  rewrite for_each_singleton, (Hnoop s2 eq_refl).
  by rewrite app_nil_r.
Qed.

(** X14: only the first body-data event of an upload reaches the handler.
    Once a body-data event for a stream has been handled, a later one for
    the same stream, with no request-received event for the stream in
    between, changes nothing: the connection runs the same, in result,
    object and effects, with or without it. A body that arrives in several
    data events is not put together. *)
Theorem later_body_events_dropped (self : H2Protocol)
    (batches : list (list Event)) (b pre mid : list Event)
    (stream_id : Z) (data data' : bytes) :
  concat batches ++ b = pre ++ DataReceived stream_id data :: mid →
  (∀ ev, ev ∈ mid → is_request_on stream_id ev = false) →
  connection (batches ++ [b ++ [DataReceived stream_id data']]) self
  = connection (batches ++ [b]) self.
Proof.
  intros Hconcat Hmid. apply connection_drop_last. intros s.
  rewrite Hconcat, for_each_app_run.
  destruct (for_each pre handle_event self) as [[[[]|e0] s1] o1]; [|done].
  rewrite for_each_cons_run.
  pose proof (data_clears_pending stream_id data s1) as Hclear.
  destruct (handle_event (DataReceived stream_id data) s1)
    as [[[[]|e0] s2] o2]; [|done].
  simpl in Hclear.
  destruct (run_invariant
              (λ s, reqs_waiting_upload s !! stream_id = None)
              (λ _, True) (λ _, True)
              (λ ev, is_request_on stream_id ev = false) mid)
    with (self := s2) as (Hl3 & _ & _);
    [|done|by apply Forall_forall|done|].
  { intros ev s' HE HIs. split; [by apply step_keeps_absent|].
    split; [by apply Forall_true|done]. }
  destruct (for_each mid handle_event s2) as [[r3 s3] o3]. simpl in *.
  intros Heq. simplify_eq.
  by rewrite http_handle_upload_unfold, Hl3.
Qed.

End MoreProperties.

(** * The properties on the configured server *)

(** GET on a data resource matches the second entry and the catch-all entry
    for static files; the earlier one is returned. *)
Lemma get_handler_first_match_witness :
  get_handler example_table "GET" "/restconf/data/x" = Some "api_get".
Proof.
  eapply (proj1 (get_handler_first_match example_table
                   "GET" "/restconf/data/x") 1%nat).
  - reflexivity.
  - reflexivity.
  - intros j c' h' Hj Hl. destruct j as [|j]; [|lia].
    injection Hl as <- <-. reflexivity.
Defined.

(** The stream's POST request and its body arrive in two [data_received]
    calls. *)
Lemma upload_dispatched_after_body_witness :
  let batches :=
    [ [RequestReceived 1
         [(":method", "POST"); (":path", "/restconf/data/interfaces")]];
      [DataReceived 1 [Byte.x7b; Byte.x7d]] ] in
  (length (List.filter (is_call_on 1)
             (connection (globals := example_globals) batches
                H2Protocol_init).2) ≤ 1)%nat.
Proof.
  intros batches.
  refine (proj1 (upload_dispatched_after_body (globals := example_globals)
                   H2Protocol_init 1 batches _ _)).
  - reflexivity.
  - intros hl Hin. simpl in Hin.
    apply elem_of_cons in Hin as [Heq|Hin].
    + injection Heq as ->. exists "POST". split; [reflexivity|by right].
    + apply elem_of_cons in Hin as [Heq|Hin]; [discriminate|].
      by apply elem_of_nil in Hin.
Defined.

Lemma get_delete_dispatched_on_request_witness :
  let event_headers :=
    [(":method", "GET"); (":path", "/restconf/data/x?depth=1")] in
  handle_event (globals := example_globals)
    (RequestReceived 3 event_headers) H2Protocol_init
  = (Return tt, H2Protocol_init,
     [handler_call "api_get" 3 (OrderedDict event_headers) None]).
Proof.
  intros event_headers.
  destruct (get_delete_dispatched_on_request (globals := example_globals)
              H2Protocol_init 3 event_headers "GET"
              "/restconf/data/x?depth=1"
              eq_refl (or_introl eq_refl) eq_refl)
    as (url_path & rest & Hsplit & Hcall & _).
  injection Hsplit as <- <-. apply Hcall. reflexivity.
Defined.

Lemma query_string_ignored_witness :
  let headers := [(":method", "GET"); (":path", "/restconf/data/x")] in
  let headers_q :=
    [(":method", "GET"); (":path", "/restconf/data/x?depth=1")] in
  (handle_get_delete (globals := example_globals) headers 3
     H2Protocol_init).2
  = [handler_call "api_get" 3 headers None]
  ∧ (handle_get_delete (globals := example_globals) headers_q 3
       H2Protocol_init).2
    = [handler_call "api_get" 3 headers_q None].
Proof.
  intros headers headers_q.
  destruct (query_string_ignored (globals := example_globals)
              H2Protocol_init 3 headers headers_q "GET"
              "/restconf/data/x" "depth=1" []
              eq_refl eq_refl eq_refl eq_refl)
    as (url_path & rest & rest' & Hsplit & _ & Hnow & _).
  injection Hsplit as <- <-.
  split.
  - rewrite (Hnow headers (or_introl eq_refl)). reflexivity.
  - rewrite (Hnow headers_q (or_intror eq_refl)). reflexivity.
Defined.

Lemma orphan_body_ignored_witness :
  handle_event (globals := example_globals) (DataReceived 7 [Byte.x7b])
    H2Protocol_init
  = (Return tt, H2Protocol_init, []).
Proof.
  apply (proj1 (orphan_body_ignored (globals := example_globals)
                  H2Protocol_init 7 [Byte.x7b])).
  reflexivity.
Defined.

(** No entry of the API table matches GET on an unknown path, and that
    table has no default handler. *)
Lemma send_empty_response_witness :
  handle_event (globals := example_api_globals)
    (RequestReceived 5 [(":method", "GET"); (":path", "/unknown/path")])
    H2Protocol_init
  = (Return tt, H2Protocol_init,
     [ conn_send_headers 5
         [ (":status", hv_str "400");
           ("content-type", hv_str "text/plain");
           ("content-length", hv_int 16);
           ("server", hv_str "jetconf") ];
       conn_send_data 5
         (encode "400" ++ [Byte.x20] ++ encode "Bad Request" ++ [Byte.x0a])
         true ]).
Proof.
  eapply (proj2 (proj2 (send_empty_response (globals := example_api_globals)
                          H2Protocol_init 5 "400" "Bad Request" true))).
  - reflexivity.
  - by left.
  - reflexivity.
  - reflexivity.
  - intros i c h Hi.
    do 6 (destruct i as [|i]; [injection Hi as <- <-; reflexivity|]).
    discriminate Hi.
  - reflexivity.
Defined.

Lemma get_handler_no_default_witness :
  get_handler example_api_table "PATCH" "/restconf/data/x" = None.
Proof.
  apply (proj1 (get_handler_no_default example_api_table
                  "PATCH" "/restconf/data/x")).
  - intros i c h Hi.
    do 6 (destruct i as [|i]; [injection Hi as <- <-; reflexivity|]).
    discriminate Hi.
  - reflexivity.
Defined.

Lemma unknown_method_logged_witness :
  handle_event (globals := example_globals)
    (RequestReceived 9 [(":method", "PATCH"); (":path", "/restconf/data/x")])
    H2Protocol_init
  = (Return tt, H2Protocol_init,
     [log_warn ("Unknown http method " +:+ DQUOTE +:+ "PATCH" +:+ DQUOTE)]).
Proof.
  apply (unknown_method_logged (globals := example_globals)
           H2Protocol_init 9
           [(":method", "PATCH"); (":path", "/restconf/data/x")] "PATCH");
    [reflexivity|discriminate..].
Defined.

Lemma missing_pseudo_header_raises_witness :
  handle_event (globals := example_globals)
    (RequestReceived 11 [(":path", "/restconf/data/x")]) H2Protocol_init
  = (Raise (KeyError ":method"), H2Protocol_init, []).
Proof.
  apply (proj1 (missing_pseudo_header_raises (globals := example_globals)
                  H2Protocol_init 11)).
  reflexivity.
Defined.

Lemma pending_request_replaced_witness :
  let old := [(":method", "PUT"); (":path", "/restconf/data/a")] in
  let new := [(":method", "POST"); (":path", "/restconf/data/b")] in
  handle_event (globals := example_globals) (RequestReceived 1 new)
    {| reqs_waiting_upload := {[ 1 := OrderedDict old ]} |}
  = (Return tt,
     {| reqs_waiting_upload :=
          <[1 := OrderedDict new]> (delete 1 {[ 1 := OrderedDict old ]}) |},
     []).
Proof.
  intros old new.
  refine (proj1 (proj2 (pending_request_replaced (globals := example_globals)
                          {| reqs_waiting_upload := {[ 1 := OrderedDict old ]} |}
                          1)
                   (OrderedDict old) new "POST" _ _ _)).
  - reflexivity.
  - reflexivity.
  - by right.
Defined.

(** * Runs of the configured server *)

(** An exact-path entry before the default handler. *)
Example resolve_exact_then_default :
  let t :=
    register_default_handler
      (register_handler HandlerList_init
         (λ m p, String.eqb m "GET" && String.eqb p "/restconf") "H1")
      "H0" in
  get_handler t "GET" "/restconf" = Some "H1"
  ∧ get_handler t "GET" "/other" = Some "H0".
Proof. by split. Qed.

(** A POST on a data resource: headers in one call, body in the next. *)
Example post_then_body :
  let headers :=
    [(":method", "POST"); (":path", "/restconf/data/interfaces")] in
  let body := [Byte.x7b; Byte.x7d] in
  let run :=
    connection (globals := example_globals)
      [[RequestReceived 1 headers]; [DataReceived 1 body]] H2Protocol_init in
  run.1.1 = Return tt
  ∧ reqs_waiting_upload run.1.2 !! 1 = None
  ∧ run.2 = [transport_write; transport_write;
             handler_call "api_post" 1 headers (Some body)].
Proof. by vm_compute. Qed.

(** A PUT whose body never arrives. *)
Example put_without_body :
  let headers := [(":method", "PUT"); (":path", "/restconf/data/x")] in
  let run :=
    connection (globals := example_globals)
      [[RequestReceived 1 headers]] H2Protocol_init in
  run.1.1 = Return tt
  ∧ reqs_waiting_upload run.1.2 !! 1 = Some headers
  ∧ run.2 = [transport_write].
Proof. by vm_compute. Qed.

(** A body in two data events: the handler gets the first, the second finds
    nothing pending. *)
Example body_in_two_events :
  let headers := [(":method", "PUT"); (":path", "/restconf/data/x")] in
  (connection (globals := example_globals)
     [[RequestReceived 1 headers; DataReceived 1 [Byte.x7b];
       DataReceived 1 [Byte.x7d]]] H2Protocol_init).2
  = [transport_write; handler_call "api_put" 1 headers (Some [Byte.x7b])].
Proof. by vm_compute. Qed.

(** Requests without [:method] end the batch. *)
Example missing_method_ends_batch :
  let run :=
    connection (globals := example_globals)
      [[RequestReceived 1 [(":path", "/restconf")];
        RequestReceived 3 [(":method", "GET"); (":path", "/restconf")]]]
      H2Protocol_init in
  run.1.1 = Raise (KeyError ":method") ∧ run.2 = [transport_write].
Proof. by vm_compute. Qed.

(** * Further properties on the configured server *)

Lemma handler_calls_are_routed_witness :
  pending_are_uploads
    (connection (globals := example_globals)
       [[RequestReceived 1
           [(":method", "PUT"); (":path", "/restconf/data/x")]]]
       H2Protocol_init).1.2.
Proof.
  apply (proj1 (handler_calls_are_routed (globals := example_globals)
                  H2Protocol_init
                  [[RequestReceived 1
                      [(":method", "PUT"); (":path", "/restconf/data/x")]]]
                  pending_are_uploads_init)).
Defined.


(** Stream 5 waits for its body while streams 1 and 3 are served. *)
Lemma other_streams_untouched_witness :
  let waiting := [(":method", "PUT"); (":path", "/restconf/data/x")] in
  let self := {| reqs_waiting_upload := {[ 5 := waiting ]} |} in
  reqs_waiting_upload
    (connection (globals := example_globals)
       [[RequestReceived 1 [(":method", "GET"); (":path", "/restconf")];
         DataReceived 3 [Byte.x7b]];
        [RequestReceived 7 [(":path", "/restconf")]]]
       self).1.2 !! 5
  = reqs_waiting_upload self !! 5.
Proof.
  intros waiting self.
  apply (other_streams_untouched (globals := example_globals) self 5).
  intros ev Hin. simpl in Hin.
  repeat (apply elem_of_cons in Hin as [->|Hin]; [simpl; congruence|]).
  by apply elem_of_nil in Hin.
Defined.

(** The body of stream 1 arrives after a request on stream 3. *)
Lemma upload_reaches_handler_witness :
  let hl := [(":method", "POST"); (":path", "/restconf/data/x?insert=last")] in
  let other := RequestReceived 3 [(":method", "GET"); (":path", "/restconf")] in
  handler_call "api_post" 1 (OrderedDict hl) (Some [Byte.x7b; Byte.x7d])
  ∈ (connection (globals := example_globals)
       [[RequestReceived 1 hl; other]; [DataReceived 1 [Byte.x7b; Byte.x7d]]]
       H2Protocol_init).2.
Proof.
  intros hl other.
  refine (upload_reaches_handler (globals := example_globals)
            H2Protocol_init
            [[RequestReceived 1 hl; other];
             [DataReceived 1 [Byte.x7b; Byte.x7d]]]
            [] [other] [] 1 hl "POST" "/restconf/data/x?insert=last"
            "/restconf/data/x" ["insert=last"] [Byte.x7b; Byte.x7d]
            eq_refl eq_refl (or_intror eq_refl) eq_refl eq_refl _ eq_refl).
  intros ev Hin.
  apply elem_of_cons in Hin as [->|Hin]; [simpl; congruence|].
  by apply elem_of_nil in Hin.
Defined.

Lemma later_body_events_dropped_witness :
  let request :=
    RequestReceived 1 [(":method", "PUT"); (":path", "/restconf/data/x")] in
  connection (globals := example_globals)
    ([[request]] ++ [[DataReceived 1 [Byte.x7b]] ++ [DataReceived 1 [Byte.x7d]]])
    H2Protocol_init
  = connection (globals := example_globals)
      ([[request]] ++ [[DataReceived 1 [Byte.x7b]]]) H2Protocol_init.
Proof.
  intros request.
  apply (later_body_events_dropped (globals := example_globals)
           H2Protocol_init [[request]] [DataReceived 1 [Byte.x7b]]
           [request] [] 1 [Byte.x7b] [Byte.x7d] eq_refl).
  intros ev Hin. by apply elem_of_nil in Hin.
Defined.

(** The table with the API handlers only answers an unknown path itself. *)
Lemma responses_are_bad_request_witness :
  let response_headers :=
    [ (":status", hv_str "400");
      ("content-type", hv_str "text/plain");
      ("content-length", hv_int 16);
      ("server", hv_str "jetconf") ] in
  response_headers = response_headers
  ∧ default_handler example_api_table = None.
Proof.
  intros response_headers.
  refine (responses_are_bad_request (globals := example_api_globals)
            H2Protocol_init
            [[RequestReceived 5
                [(":method", "GET"); (":path", "/unknown/path")]]]
            (conn_send_headers 5 response_headers) _).
  apply elem_of_cons. right. apply elem_of_cons. by left.
Defined.
